(** * LXD: TCP timeout hardening and expired-token housekeeping

    A shallow embedding of [shared/tcp/tcp_timeouts.go] ([ExtractConn],
    [SetTimeouts]) and of the daemon task [autoRemoveExpiredTokens] with
    its scheduler entry [autoRemoveExpiredTokensTask].

    Go values are modelled as follows.
    - [time.Duration] is an [int64] count of nanoseconds: a [Z] with the
      wrap-around of the multiplication written out.
    - [error] is an inductive type with the nil error as a constructor.
    - Pointers are addresses into finite maps ([gmap]) that hold the
      objects they point to; the nil pointer is a constructor of [pointer].
    - Code with effects is written in a state monad over an explicit world;
      every call into a package outside the source file is recorded in a
      trace, so that which calls were made, and in which order, can be
      stated. *)

From Stdlib Require Import ZArith.
From stdpp Require Import gmap strings list.

Local Open Scope Z_scope.

(** ** Go errors *)

Inductive error : Type :=
| nil_error
| errorString (msg : string)               (* fmt.Errorf without %w, errors.New *)
| Errno (code : Z)                         (* syscall.Errno *)
| wrapError (context : string) (cause : error). (* fmt.Errorf with %w, *net.OpError *)

(** [err != nil] *)
Definition is_err (e : error) : bool :=
  match e with nil_error => false | _ => true end.

Definition EINVAL : Z := 22.
Definition EBADF : Z := 9.

(** ** time.Duration *)

Definition Duration : Type := Z.

Definition int64_wrap (z : Z) : Z := (z + 2 ^ 63) mod 2 ^ 64 - 2 ^ 63.

Definition Nanosecond : Duration := 1.
Definition Microsecond : Duration := int64_wrap (1000 * Nanosecond).
Definition Millisecond : Duration := int64_wrap (1000 * Microsecond).
Definition Second : Duration := int64_wrap (1000 * Millisecond).

(** Multiplication of two durations (or of a duration and an untyped
    constant), as [int64]. *)
Definition dur_mul (a b : Duration) : Duration := int64_wrap (a * b).

(** ** A state monad *)

Section StateMonad.
Context {W : Type}.

Definition St (A : Type) : Type := W -> W * A.

Definition ret {A} (a : A) : St A := fun w => (w, a).

Definition bind {A B} (m : St A) (k : A -> St B) : St B :=
  fun w => let (w', a) := m w in k a w'.

(** Read something from the world without changing it. *)
Definition gets {A} (f : W -> A) : St A := fun w => (w, f w).

Definition modify (f : W -> W) : St unit := fun w => (f w, tt).
End StateMonad.

Arguments St : clear implicits.

Declare Scope go_scope.
Delimit Scope go_scope with go.
Notation "x <- c ;; k" := (bind c (fun x => k))
  (at level 100, c at next level, right associativity) : go_scope.
Notation "c ;;; k" := (bind c (fun _ => k))
  (at level 100, right associativity) : go_scope.

(** A call either returns or panics. *)
Inductive outcome (A : Type) : Type :=
| Returns (a : A)
| Panics (msg : string).
Arguments Returns {A} a.
Arguments Panics {A} msg.

(** ** Package tcp: connections and sockets *)

Definition addr : Type := positive.

Inductive pointer : Type :=
| null
| ptr (a : addr).

(** A value of the interface type [net.Conn]: the nil interface, or a
    dynamic type together with a pointer. *)
Inductive netConn : Type :=
| nilConn
| tlsConnOf (p : pointer)                  (* dynamic type *tls.Conn *)
| TCPConnOf (p : pointer)                  (* dynamic type *net.TCPConn *)
| otherConnOf (dyn : string) (p : pointer). (* any other implementation *)

(** The value held by a struct field, as [reflect] sees it. *)
Inductive fieldValue : Type :=
| FConn (c : netConn)   (* a field of interface type net.Conn *)
| FBool (b : bool)
| FInt (z : Z)
| FOpaque.              (* a field of any other type *)

(** The struct [tls.Conn], as the list of its named fields. *)
Definition tls_Conn : Type := list (string * fieldValue).

(** The socket options of a live [net.TCPConn]; [None] is the default of
    the operating system. *)
Record TCPConn : Type := mkTCPConn {
  userTimeout : option Duration;
  keepAlive : bool;
  keepAlivePeriod : option Duration
}.

(** A method call on a raw transport handle. *)
Inductive SockCall : Type :=
| CallSetUserTimeout (conn : pointer) (timeout : Duration)
| CallSetKeepAlive (conn : pointer) (keepalive : bool)
| CallSetKeepAlivePeriod (conn : pointer) (d : Duration).

Record NetWorld : Type := mkNetWorld {
  tlsConns : gmap addr tls_Conn;
  tcpConns : gmap addr TCPConn;
  sockCalls : list SockCall
}.

Definition log_call (c : SockCall) (w : NetWorld) : NetWorld :=
  mkNetWorld (tlsConns w) (tcpConns w) (sockCalls w ++ [c]).

Definition set_socket (a : addr) (s : TCPConn) (w : NetWorld) : NetWorld :=
  mkNetWorld (tlsConns w) (<[a := s]> (tcpConns w)) (sockCalls w).

(** The type assertion of [conn] to [*tls.Conn], in its comma-ok form. *)
Definition assert_tlsConn (conn : netConn) : option pointer :=
  match conn with
  | tlsConnOf p => Some p
  | _ => None
  end.

(** [reflect.ValueOf(p).Elem()]: the struct a [*tls.Conn] points to; the
    zero Value ([None]) for a nil pointer. *)
Definition reflect_Elem (p : pointer) : St NetWorld (option tls_Conn) :=
  gets (fun w => match p with
                 | null => None
                 | ptr a => tlsConns w !! a
                 end).

(** [v.FieldByName(name)]: the first field with that name; the zero Value
    ([None]) when there is none. *)
Fixpoint FieldByName (v : tls_Conn) (name : string) : option fieldValue :=
  match v with
  | [] => None
  | (n, x) :: rest => if String.eqb n name then Some x else FieldByName rest name
  end.

(** The type assertion of the value [field.Interface()] to [*net.TCPConn],
    in its comma-ok form. *)
Definition assert_TCPConn (c : fieldValue) : option pointer :=
  match c with
  | FConn (TCPConnOf p) => Some p
  | _ => None
  end.

Definition ExtractConn (conn : netConn) : St NetWorld (outcome (pointer * error)) :=
  (match assert_tlsConn conn with
   | None => ret (Returns (null, errorString "Connection is not a tls.Conn"))
   | Some tlsConn =>
       v <- reflect_Elem tlsConn ;;
       match v with
       | None => ret (Panics "reflect: call of reflect.Value.FieldByName on zero Value")
       | Some s =>
           match FieldByName s "conn" with
           | None => ret (Panics "reflect: call of reflect.Value.Type on zero Value")
           | Some field =>
               (* reflect.NewAt(field.Type(), unsafe.Pointer(field.UnsafeAddr())).Elem()
                  is the same location with the read-only flag dropped *)
               let c := field in
               match assert_TCPConn c with
               | None => ret (Returns (null, errorString "Connection is not a net.TCPConn"))
               | Some tcpConn => ret (Returns (tcpConn, nil_error))
               end
           end
       end
   end)%go.

Section Sockets.
(** The verdict of the operating system on a socket option: [nil_error]
    when it accepts it, the error otherwise (closed socket, platform
    restriction, missing permission). It may depend on everything that
    happened before. *)
Variable os_reject : NetWorld -> SockCall -> error.

(** A method of [*net.TCPConn] that sets one socket option. The call is
    recorded; on a nil receiver or a connection without a descriptor the
    method returns [EINVAL] ([c.ok()] is false); otherwise the operating
    system decides, and the option changes only when it accepts. *)
Definition setsockopt (call : SockCall) (conn : pointer)
    (update : TCPConn -> TCPConn) : St NetWorld error :=
  fun w =>
    let w' := log_call call w in
    match conn with
    | null => (w', Errno EINVAL)
    | ptr a =>
        match tcpConns w !! a with
        | None => (w', Errno EINVAL)
        | Some s =>
            match os_reject w call with
            | nil_error => (set_socket a (update s) w', nil_error)
            | e => (w', e)
            end
        end
    end.

(** Modelled from the spec: [SetUserTimeout] is defined in a
    platform-specific file that is not part of the source; it sets the
    bound on unacknowledged data (TCP_USER_TIMEOUT) of the socket and
    returns the error of the operating system when that is rejected. *)
Definition SetUserTimeout (conn : pointer) (timeout : Duration) : St NetWorld error :=
  setsockopt (CallSetUserTimeout conn timeout) conn
    (fun s => mkTCPConn (Some timeout) (keepAlive s) (keepAlivePeriod s)).

(** The method [SetKeepAlive] of [*net.TCPConn]. *)
Definition SetKeepAlive (conn : pointer) (keepalive : bool) : St NetWorld error :=
  setsockopt (CallSetKeepAlive conn keepalive) conn
    (fun s => mkTCPConn (userTimeout s) keepalive (keepAlivePeriod s)).

(** The method [SetKeepAlivePeriod] of [*net.TCPConn]. *)
Definition SetKeepAlivePeriod (conn : pointer) (d : Duration) : St NetWorld error :=
  setsockopt (CallSetKeepAlivePeriod conn d) conn
    (fun s => mkTCPConn (userTimeout s) (keepAlive s) (Some d)).

Definition SetTimeouts (conn : pointer) : St NetWorld error :=
  (err <- SetUserTimeout conn (dur_mul Second 30) ;;
   if is_err err then ret err else
   err <- SetKeepAlive conn true ;;
   if is_err err then ret err else
   err <- SetKeepAlivePeriod conn (dur_mul 3 Second) ;;
   if is_err err then ret err else
   ret nil_error)%go.
End Sockets.

(** ** Package main: the registry of operations *)

(** A [time.Time], as the instant it denotes in nanoseconds since the
    epoch. *)
Definition Time : Type := Z.

(** [t.After(u)] *)
Definition After (t u : Time) : bool := u <? t.

(** A value of type [any], as stored in the metadata of an operation. *)
Inductive any : Type :=
| AnyNil
| AnyTime (t : Time)        (* dynamic type time.Time *)
| AnyString (s : string)
| AnyInt (z : Z)
| AnyBool (b : bool).

(** [operationtype.Type]: the constants the code names, and all others. *)
Inductive OperationType : Type :=
| ClusterJoinToken
| CertificateAddToken
| RemoveExpiredTokens
| OtherOperationType (code : Z).

#[global] Instance OperationType_eq_dec : EqDecision OperationType.
Proof. solve_decision. Defined.

Inductive OperationClass : Type :=
| OperationClassTask
| OperationClassWebsocket
| OperationClassToken.

Inductive StatusCode : Type :=
| Pending
| Running
| Cancelled
| Success
| Failure.

(** An operation of the registry. Its id is the key it is registered
    under, and a [*operations.Operation] is represented by that id. *)
Record Operation : Type := mkOperation {
  opClass : OperationClass;
  opType : OperationType;
  opMetadata : gmap string any;
  opStatus : StatusCode
}.

Inductive LogLevel : Type :=
| LevelDebug
| LevelInfo
| LevelError.

(** A value of a [logger.Ctx]. *)
Inductive ctxValue : Type :=
| CtxErr (e : error)
| CtxString (s : string).

Record LogEntry : Type := mkLogEntry {
  logLevel : LogLevel;
  logMessage : string;
  logCtx : list (string * ctxValue)
}.

(** A call into package [operations] that can change the registry. *)
Inductive OpCall : Type :=
| CallOperationCreate (class : OperationClass) (type : OperationType)
| CallStart (id : string)
| CallCancel (id : string)
| CallWait (id : string).

Record DaemonWorld : Type := mkDaemonWorld {
  registry : gmap string Operation;  (* the operations of package operations *)
  clockReads : nat;                  (* how often the clock has been read *)
  logs : list LogEntry;
  opCalls : list OpCall
}.

(** What the code cannot decide itself: the order in which Go ranges over
    a map, the clock, fresh identifiers, and whether the calls into package
    [operations] fail. *)
Record Externals : Type := mkExternals {
  range_order : gmap string Operation -> list (string * Operation);
  wall_clock : nat -> Time;            (* the n-th reading of the clock *)
  uuid_New : DaemonWorld -> string;
  OperationCreate_err : DaemonWorld -> error;
  Start_err : DaemonWorld -> string -> error;
  Cancel_err : DaemonWorld -> string -> error;
  Wait_err : DaemonWorld -> string -> error
}.

Definition with_registry (f : gmap string Operation -> gmap string Operation)
    (w : DaemonWorld) : DaemonWorld :=
  mkDaemonWorld (f (registry w)) (clockReads w) (logs w) (opCalls w).

Definition with_status (st : StatusCode) (op : Operation) : Operation :=
  mkOperation (opClass op) (opType op) (opMetadata op) st.

Definition set_status (id : string) (st : StatusCode) : DaemonWorld -> DaemonWorld :=
  with_registry (alter (with_status st) id).

Definition log_opcall (c : OpCall) (w : DaemonWorld) : DaemonWorld :=
  mkDaemonWorld (registry w) (clockReads w) (logs w) (opCalls w ++ [c]).

Definition add_log (e : LogEntry) (w : DaemonWorld) : DaemonWorld :=
  mkDaemonWorld (registry w) (clockReads w) (logs w ++ [e]) (opCalls w).

Definition tick (w : DaemonWorld) : DaemonWorld :=
  mkDaemonWorld (registry w) (S (clockReads w)) (logs w) (opCalls w).

(** [logger.Debug], [logger.Info] and [logger.Error] append an entry to the
    log. *)
Definition logger_Debug (msg : string) (ctx : list (string * ctxValue)) : St DaemonWorld unit :=
  modify (add_log (mkLogEntry LevelDebug msg ctx)).
Definition logger_Info (msg : string) : St DaemonWorld unit :=
  modify (add_log (mkLogEntry LevelInfo msg [])).
Definition logger_Error (msg : string) (ctx : list (string * ctxValue)) : St DaemonWorld unit :=
  modify (add_log (mkLogEntry LevelError msg ctx)).

(** The type assertion of a metadata entry to [time.Time], in its comma-ok
    form; a missing key reads as the nil value, which fails it. *)
Definition assert_Time (v : option any) : option Time :=
  match v with
  | Some (AnyTime t) => Some t
  | _ => None
  end.

(** The handle [OperationCreate] returns: the id of the new operation and
    the function it runs. *)
Record OperationHandle : Type := mkOperationHandle {
  handleID : string;
  onRun : string -> St DaemonWorld error
}.


Section Daemon.
Variable X : Externals.

(** [time.Now()]: the next reading of the clock. *)
Definition time_Now : St DaemonWorld Time :=
  fun w => (tick w, wall_clock X (clockReads w)).

(** Modelled from the spec: [operations.Clone] is not part of the source; it
    returns a copy of the registry of operations, here as the list of its
    entries in the order in which the [range] statement visits them. *)
Definition operations_Clone : St DaemonWorld (list (string * Operation)) :=
  gets (fun w => range_order X (registry w)).

(** Modelled from the spec: [operations.OperationCreate] is not part of the
    source; it creates the housekeeping operation and registers it, in
    state [Pending], in the registry the token operations live in, or
    fails and returns the error. *)
Definition OperationCreate (class : OperationClass) (type : OperationType)
    (run : string -> St DaemonWorld error) : St DaemonWorld (OperationHandle + error) :=
  fun w =>
    let w' := log_opcall (CallOperationCreate class type) w in
    match OperationCreate_err X w with
    | nil_error =>
        let id := uuid_New X w in
        (with_registry (insert id (mkOperation class type ∅ Pending)) w',
         inl (mkOperationHandle id run))
    | e => (w', inr e)
    end.

(** Modelled from the spec: [Cancel] of package [operations] is not part of
    the source; it marks the operation cancelled, or fails and returns the
    error. The channel it also returns is discarded by the caller. *)
Definition Operation_Cancel (id : string) : St DaemonWorld error :=
  fun w =>
    let w' := log_opcall (CallCancel id) w in
    match Cancel_err X w id with
    | nil_error => (set_status id Cancelled w', nil_error)
    | e => (w', e)
    end.

(** Modelled from the spec: [Start] of package [operations] is not part of
    the source; it reports the start in the registry, runs the function of
    the operation and reports its success or failure in the registry. The
    function runs in a goroutine; here it has run to completion when
    [Start] returns, which is the state [Wait] waits for. *)
Definition Operation_Start (op : OperationHandle) : St DaemonWorld error :=
  fun w =>
    let w1 := log_opcall (CallStart (handleID op)) w in
    match Start_err X w (handleID op) with
    | nil_error =>
        let (w2, err) := onRun op (handleID op) (set_status (handleID op) Running w1) in
        (set_status (handleID op) (if is_err err then Failure else Success) w2, nil_error)
    | e => (w1, e)
    end.

(** Modelled from the spec: [Wait] of package [operations] is not part of
    the source; it returns when the operation is done, or with an error.
    The caller discards both results. *)
Definition Operation_Wait (op : OperationHandle) : St DaemonWorld (bool * error) :=
  fun w =>
    let w' := log_opcall (CallWait (handleID op)) w in
    (w', (negb (is_err (Wait_err X w (handleID op))), Wait_err X w (handleID op))).

(** The loop over the clone of the registry. *)
Fixpoint scan_operations (ops : list (string * Operation))
    (expiredTokenOps : list (string * Operation))
    : St DaemonWorld (list (string * Operation)) :=
  match ops with
  | [] => ret expiredTokenOps
  | op :: rest =>
      (* Only consider token operations *)
      if negb (bool_decide (opType op.2 = ClusterJoinToken))
         && negb (bool_decide (opType op.2 = CertificateAddToken))
      then scan_operations rest expiredTokenOps
      else
        match assert_Time (opMetadata op.2 !! "expiresAt") with
        | Some expiry =>
            (now <- time_Now ;;
             if After now expiry
             then scan_operations rest (expiredTokenOps ++ [op])
             else scan_operations rest expiredTokenOps)%go
        | None => scan_operations rest expiredTokenOps
        end
  end.

(** The loop inside [opRun]. *)
Fixpoint cancel_expired (expiredTokenOps : list (string * Operation)) : St DaemonWorld unit :=
  match expiredTokenOps with
  | [] => ret tt
  | op :: rest =>
      (err <- Operation_Cancel op.1 ;;
       (if is_err err
        then logger_Debug "Failed removing expired token"
               [("err", CtxErr err); ("id", CtxString op.1)]
        else ret tt) ;;;
       cancel_expired rest)%go
  end.

Definition opRun (expiredTokenOps : list (string * Operation)) (op : string)
    : St DaemonWorld error :=
  (cancel_expired expiredTokenOps ;;; ret nil_error)%go.

Definition autoRemoveExpiredTokens : St DaemonWorld error :=
  (ops <- operations_Clone ;;
   expiredTokenOps <- scan_operations ops [] ;;
   if (length expiredTokenOps =? 0)%nat then ret nil_error else
   r <- OperationCreate OperationClassTask RemoveExpiredTokens (opRun expiredTokenOps) ;;
   match r with
   | inr err =>
       logger_Error "Failed to start remove expired tokens operation" [("err", CtxErr err)] ;;;
       ret err
   | inl op =>
       logger_Info "Removing expired tokens" ;;;
       err <- Operation_Start op ;;
       if is_err err then
         logger_Error "Failed to remove expired tokens" [("err", CtxErr err)] ;;;
         ret err
       else
         _ <- Operation_Wait op ;;
         logger_Debug "Done removing expired tokens" [] ;;;
         ret nil_error
   end)%go.

End Daemon.

(** ** Concrete worlds

    A TLS connection at address 1 over the TCP socket at address 2, a TLS
    connection at address 3 over a connection that is not a TCP socket,
    and operating systems that accept every option or reject one of them. *)

Definition net0 : NetWorld :=
  mkNetWorld
    (<[1%positive := [("conn", FConn (TCPConnOf (ptr 2%positive))); ("isClient", FBool true)]]>
       (<[3%positive := [("conn", FConn (otherConnOf "*net.UnixConn" (ptr 4%positive)))]]> ∅))
    (<[2%positive := mkTCPConn None false None]> ∅)
    [].

Definition os_accept : NetWorld -> SockCall -> error :=
  fun _ _ => nil_error.

Definition set_failed : error := wrapError "set tcp 10.0.0.1:8443" (Errno EBADF).

Definition os_reject_user_timeout : NetWorld -> SockCall -> error :=
  fun _ c => match c with CallSetUserTimeout _ _ => Errno EBADF | _ => nil_error end.

Definition os_reject_keepalive : NetWorld -> SockCall -> error :=
  fun _ c => match c with CallSetKeepAlive _ _ => set_failed | _ => nil_error end.

Definition os_reject_period : NetWorld -> SockCall -> error :=
  fun _ c => match c with CallSetKeepAlivePeriod _ _ => set_failed | _ => nil_error end.

(** A registry with one expired token, one token that is still valid, two
    tokens without a usable expiry and an operation that is not a token;
    the clock starts at 1000. *)

Definition token (t : OperationType) (md : gmap string any) : Operation :=
  mkOperation OperationClassToken t md Running.

Definition registry0 : gmap string Operation :=
  <["tok-expired" := token ClusterJoinToken (<["expiresAt" := AnyTime 100]> ∅)]>
  (<["tok-valid" := token CertificateAddToken (<["expiresAt" := AnyTime 5000]> ∅)]>
  (<["tok-noexpiry" := token ClusterJoinToken ∅]>
  (<["tok-string" := token CertificateAddToken (<["expiresAt" := AnyString "2020-01-01"]> ∅)]>
  (<["backup" := mkOperation OperationClassTask (OtherOperationType 37)
                   (<["expiresAt" := AnyTime 1]> ∅) Running]> ∅)))).

Definition daemon0 : DaemonWorld := mkDaemonWorld registry0 0 [] [].

(** A registry in which nothing has expired. *)
Definition daemon_quiet : DaemonWorld :=
  mkDaemonWorld (delete "tok-expired" registry0) 0 [] [].

Definition no_error1 : DaemonWorld -> error := fun _ => nil_error.
Definition no_error2 : DaemonWorld -> string -> error := fun _ _ => nil_error.

Definition X0 : Externals :=
  mkExternals map_to_list (fun n => 1000 + Z.of_nat n) (fun _ => "housekeeping")
    no_error1 no_error2 no_error2 no_error2.

(** The same, with a [Wait] that fails. *)
Definition X_wait_fails : Externals :=
  mkExternals map_to_list (fun n => 1000 + Z.of_nat n) (fun _ => "housekeeping")
    no_error1 no_error2 no_error2 (fun _ _ => errorString "context canceled").

(** The same, with a [Cancel] that fails. *)
Definition X_cancel_fails : Externals :=
  mkExternals map_to_list (fun n => 1000 + Z.of_nat n) (fun _ => "housekeeping")
    no_error1 no_error2
    (fun _ _ => errorString "Only running operations can be cancelled") no_error2.

(** The same, with an [OperationCreate] that fails. *)
Definition X_create_fails : Externals :=
  mkExternals map_to_list (fun n => 1000 + Z.of_nat n) (fun _ => "housekeeping")
    (fun _ => errorString "LXD is shutting down") no_error2 no_error2 no_error2.

(** The two kinds of token operations. *)
Definition token_type (op : Operation) : Prop :=
  opType op = ClusterJoinToken ∨ opType op = CertificateAddToken.

(** An operation without its status. *)
Definition erase_status (op : Operation) : Operation := with_status Pending op.

(** The world in which the housekeeping operation [hid] is started, when
    it was created in the world [ws]: the creation is recorded, the operation
    is registered as pending, and the start of the removal is logged. *)
Definition housekeeping_created (hid : string) (ws : DaemonWorld) : DaemonWorld :=
  add_log (mkLogEntry LevelInfo "Removing expired tokens" [])
    (with_registry
       (insert hid (mkOperation OperationClassTask RemoveExpiredTokens ∅ Pending))
       (log_opcall (CallOperationCreate OperationClassTask RemoveExpiredTokens) ws)).

(** The ids on which a trace calls [Cancel], in the order of the calls. *)
Fixpoint cancelled_ids (calls : list OpCall) : list string :=
  match calls with
  | [] => []
  | CallCancel id :: rest => id :: cancelled_ids rest
  | _ :: rest => cancelled_ids rest
  end.

(** Whether an operation is of one of the two token kinds and carries a
    [time.Time] expiry that lies before [now]. *)
Definition expired_at (now : Time) (op : Operation) : bool :=
  (bool_decide (opType op = ClusterJoinToken)
   || bool_decide (opType op = CertificateAddToken))
  && match assert_Time (opMetadata op !! "expiresAt") with
     | Some expiry => After now expiry
     | None => false
     end.

(** The externals of [X0] with a clock that stands still at 1000, and with
    a [Start] that fails. *)
Definition X_frozen : Externals :=
  mkExternals map_to_list (fun _ => 1000) (fun _ => "housekeeping")
    no_error1 no_error2 no_error2 no_error2.

Definition X_start_fails : Externals :=
  mkExternals map_to_list (fun n => 1000 + Z.of_nat n) (fun _ => "housekeeping")
    no_error1 (fun _ _ => errorString "Only pending operations can be started")
    no_error2 no_error2.

(** A registry with a token that expires at the very instant 1000. *)
Definition daemon_boundary : DaemonWorld :=
  mkDaemonWorld
    (<["tok-now" := token ClusterJoinToken (<["expiresAt" := AnyTime 1000]> ∅)]> registry0)
    0 [] [].

(** A TLS connection at address 5 that is laid out without a field [conn]. *)
Definition net_odd : NetWorld :=
  mkNetWorld (<[5%positive := [("rawConn", FConn (TCPConnOf (ptr 2%positive)))]]> ∅)
    (<[2%positive := mkTCPConn None false None]> ∅) [].

(** * Properties of package tcp *)

Section SocketFacts.
Variable os_reject : NetWorld -> SockCall -> error.

Lemma setsockopt_trace call conn update w w' e :
  setsockopt os_reject call conn update w = (w', e) →
  sockCalls w' = sockCalls w ++ [call] ∧ tlsConns w' = tlsConns w.
Proof.
  unfold setsockopt. intros H.
  destruct conn as [|a]; [by inversion H|].
  destruct (tcpConns w !! a); [|by inversion H].
  destruct (os_reject w call); by inversion H.
Qed.

Lemma setsockopt_accepted call conn update w w' :
  setsockopt os_reject call conn update w = (w', nil_error) →
  ∃ a s, conn = ptr a ∧ tcpConns w !! a = Some s
         ∧ tcpConns w' = <[a := update s]> (tcpConns w).
Proof.
  unfold setsockopt. intros H.
  destruct conn as [|a]; [by inversion H|].
  destruct (tcpConns w !! a) as [s|] eqn:Hs; [|by inversion H].
  destruct (os_reject w call); inversion H. eauto.
Qed.

Lemma setsockopt_rejected call conn update w w' e :
  setsockopt os_reject call conn update w = (w', e) →
  is_err e = true →
  tcpConns w' = tcpConns w.
Proof.
  unfold setsockopt. intros H He.
  destruct conn as [|a]; [by inversion H|].
  destruct (tcpConns w !! a); [|by inversion H].
  destruct (os_reject w call); by simplify_eq/=.
Qed.

Lemma thirty_seconds : dur_mul Second 30 = 30000000000.
Proof. reflexivity. Qed.

Lemma three_seconds : dur_mul 3 Second = 3000000000.
Proof. reflexivity. Qed.

(** [SetTimeouts] with its binds unfolded. *)
Lemma SetTimeouts_steps conn w :
  SetTimeouts os_reject conn w =
    let (w1, e1) := SetUserTimeout os_reject conn 30000000000 w in
    if is_err e1 then (w1, e1) else
    let (w2, e2) := SetKeepAlive os_reject conn true w1 in
    if is_err e2 then (w2, e2) else
    let (w3, e3) := SetKeepAlivePeriod os_reject conn 3000000000 w2 in
    if is_err e3 then (w3, e3) else (w3, nil_error).
Proof.
  unfold SetTimeouts, bind, ret. rewrite thirty_seconds, three_seconds.
  destruct (SetUserTimeout _ _ _ _) as [w1 e1]. destruct (is_err e1); [reflexivity|].
  destruct (SetKeepAlive _ _ _ _) as [w2 e2]. destruct (is_err e2); [reflexivity|].
  destruct (SetKeepAlivePeriod _ _ _ _) as [w3 e3]. by destruct (is_err e3).
Qed.

Lemma is_err_nil e : is_err e = false ↔ e = nil_error.
Proof. by destruct e. Qed.

Lemma is_err_true e : is_err e = true ↔ e ≠ nil_error.
Proof. by destruct e. Qed.
End SocketFacts.

Section TcpClaims.
Variable os_reject : NetWorld -> SockCall -> error.

Lemma ExtractConn_inspects conn w : (ExtractConn conn w).1 = w.
Proof.
  unfold ExtractConn, bind, reflect_Elem, gets, ret.
  destruct (assert_tlsConn conn) as [p|]; [|done].
  destruct (match p with null => None | ptr a => tlsConns w !! a end) as [s|]; [|done].
  destruct (FieldByName s "conn") as [field|]; [|done].
  by destruct (assert_TCPConn field).
Qed.

Lemma ExtractConn_tls w a s :
  tlsConns w !! a = Some s →
  ExtractConn (tlsConnOf (ptr a)) w =
    match FieldByName s "conn" with
    | None => (w, Panics "reflect: call of reflect.Value.Type on zero Value")
    | Some field =>
        match assert_TCPConn field with
        | None => (w, Returns (null, errorString "Connection is not a net.TCPConn"))
        | Some tcpConn => (w, Returns (tcpConn, nil_error))
        end
    end.
Proof.
  intros Hs. unfold ExtractConn, bind, reflect_Elem, gets, ret. simpl. rewrite Hs.
  destruct (FieldByName s "conn") as [field|]; [|done].
  by destruct (assert_TCPConn field).
Qed.

(** The socket after the three options have been accepted one after the
    other; the TLS connections are not touched. *)
Lemma three_options_set conn w w1 w2 w3 :
  SetUserTimeout os_reject conn 30000000000 w = (w1, nil_error) →
  SetKeepAlive os_reject conn true w1 = (w2, nil_error) →
  SetKeepAlivePeriod os_reject conn 3000000000 w2 = (w3, nil_error) →
  tlsConns w3 = tlsConns w
  ∧ ∃ a, conn = ptr a
         ∧ tcpConns w3 !! a = Some (mkTCPConn (Some 30000000000) true (Some 3000000000)).
Proof.
  intros H1 H2 H3. split.
  - apply setsockopt_trace in H1 as [_ T1]. apply setsockopt_trace in H2 as [_ T2].
    apply setsockopt_trace in H3 as [_ T3]. congruence.
  - unfold SetUserTimeout in H1. unfold SetKeepAlive in H2.
    unfold SetKeepAlivePeriod in H3.
    apply setsockopt_accepted in H1 as (a & s & -> & Hs & E1).
    apply setsockopt_accepted in H2 as (a2 & s1 & Ha2 & Hs1 & E2).
    apply setsockopt_accepted in H3 as (a3 & s2 & Ha3 & Hs2 & E3).
    simplify_eq. exists a3. split; [done|].
    rewrite E1, lookup_insert_eq in Hs1. rewrite E2, lookup_insert_eq in Hs2.
    simplify_eq. rewrite E3, lookup_insert_eq. done.
Qed.

(** [SetTimeouts] returns nil only when each of the three operations did. *)
Lemma SetTimeouts_nil_steps conn w w' :
  SetTimeouts os_reject conn w = (w', nil_error) →
  ∃ w1 w2, SetUserTimeout os_reject conn 30000000000 w = (w1, nil_error)
           ∧ SetKeepAlive os_reject conn true w1 = (w2, nil_error)
           ∧ SetKeepAlivePeriod os_reject conn 3000000000 w2 = (w', nil_error).
Proof.
  rewrite SetTimeouts_steps. intros H.
  destruct (SetUserTimeout _ _ _ w) as [w1 e1] eqn:H1.
  destruct (is_err e1) eqn:E1; [by simplify_eq|]. apply is_err_nil in E1 as ->.
  destruct (SetKeepAlive _ _ _ w1) as [w2 e2] eqn:H2.
  destruct (is_err e2) eqn:E2; [by simplify_eq|]. apply is_err_nil in E2 as ->.
  destruct (SetKeepAlivePeriod _ _ _ w2) as [w3 e3] eqn:H3.
  destruct (is_err e3) eqn:E3; [by simplify_eq|]. apply is_err_nil in E3 as ->.
  exists w1, w2. by simplify_eq.
Qed.

(** C1. On a raw transport handle on which the three operations succeed,
    [SetTimeouts] calls, in this order and nothing else, [SetUserTimeout]
    with 30 seconds, [SetKeepAlive] with [true] and [SetKeepAlivePeriod]
    with 3 seconds, and returns nil; afterwards the socket has a user
    timeout of 30 s, keepalive enabled and a keepalive period of 3 s. *)
Theorem SetTimeouts_all_succeed conn w w1 w2 w3 :
  SetUserTimeout os_reject conn (30 * 1000000000) w = (w1, nil_error) →
  SetKeepAlive os_reject conn true w1 = (w2, nil_error) →
  SetKeepAlivePeriod os_reject conn (3 * 1000000000) w2 = (w3, nil_error) →
  SetTimeouts os_reject conn w = (w3, nil_error)
  ∧ sockCalls w3 = sockCalls w ++ [CallSetUserTimeout conn (30 * 1000000000);
                                   CallSetKeepAlive conn true;
                                   CallSetKeepAlivePeriod conn (3 * 1000000000)]
  ∧ ∃ a, conn = ptr a
         ∧ tcpConns w3 !! a
           = Some (mkTCPConn (Some (30 * 1000000000)) true (Some (3 * 1000000000))).
Proof.
  change (30 * 1000000000) with 30000000000. change (3 * 1000000000) with 3000000000.
  intros H1 H2 H3. split; [|split].
  - rewrite SetTimeouts_steps, H1. simpl. rewrite H2. simpl. by rewrite H3.
  - apply setsockopt_trace in H1 as [T1 _]. apply setsockopt_trace in H2 as [T2 _].
    apply setsockopt_trace in H3 as [T3 _].
    rewrite T3, T2, T1, <- !app_assoc. done.
  - by destruct (three_options_set _ _ _ _ _ H1 H2 H3) as [_ ?].
Qed.

(** C2. For a [*tls.Conn] whose private field [conn] holds a
    [*net.TCPConn], [ExtractConn] returns that very pointer and a nil
    error, and leaves the world as it was. The handle is the socket of the
    connection and not a copy of it: options set through it by
    [SetTimeouts] are those of the socket the field [conn] of the TLS
    connection still points to. *)
Theorem ExtractConn_returns_inner_TCPConn w a s q :
  tlsConns w !! a = Some s →
  FieldByName s "conn" = Some (FConn (TCPConnOf q)) →
  ExtractConn (tlsConnOf (ptr a)) w = (w, Returns (q, nil_error))
  ∧ ∀ w', SetTimeouts os_reject q w = (w', nil_error) →
          tlsConns w' !! a = Some s
          ∧ ∃ a', q = ptr a'
                  ∧ tcpConns w' !! a'
                    = Some (mkTCPConn (Some (30 * 1000000000)) true (Some (3 * 1000000000))).
Proof.
  intros Hs Hf. split; [by rewrite (ExtractConn_tls _ _ _ Hs), Hf|].
  intros w' Hset. apply SetTimeouts_nil_steps in Hset as (w1 & w2 & H1 & H2 & H3).
  destruct (three_options_set _ _ _ _ _ H1 H2 H3) as [Htls Hsock].
  by rewrite Htls.
Qed.

(** C3. For a connection that is not a [*tls.Conn], [ExtractConn] returns
    (it does not panic) the error "Connection is not a tls.Conn" and no
    handle; and for every input, whatever it returns, it leaves all
    connections, all sockets and the trace of socket calls unchanged. *)
Theorem ExtractConn_rejects_non_tls :
  (∀ conn w, (∀ p, conn ≠ tlsConnOf p) →
     ExtractConn conn w = (w, Returns (null, errorString "Connection is not a tls.Conn")))
  ∧ (∀ conn w, (ExtractConn conn w).1 = w).
Proof.
  split; [|apply ExtractConn_inspects].
  intros conn w Hno. destruct conn as [|p|p|d p]; try done.
  by destruct (Hno p).
Qed.

(** C6. For a [*tls.Conn] whose field [conn] holds anything but a
    [*net.TCPConn], [ExtractConn] returns the error "Connection is not a
    net.TCPConn" and the nil handle. *)
Theorem ExtractConn_rejects_non_TCP w a s field :
  tlsConns w !! a = Some s →
  FieldByName s "conn" = Some field →
  (∀ q, field ≠ FConn (TCPConnOf q)) →
  ExtractConn (tlsConnOf (ptr a)) w
  = (w, Returns (null, errorString "Connection is not a net.TCPConn")).
Proof.
  intros Hs Hf Hno. rewrite (ExtractConn_tls _ _ _ Hs), Hf.
  destruct field as [[|p|p|d p]|b|z|]; try done.
  by destruct (Hno p).
Qed.
End TcpClaims.

Lemma SetTimeouts_all_succeed_witness :
  SetTimeouts os_accept (ptr 2%positive) net0
  = ((SetTimeouts os_accept (ptr 2%positive) net0).1, nil_error)
  ∧ sockCalls (SetTimeouts os_accept (ptr 2%positive) net0).1
    = [CallSetUserTimeout (ptr 2%positive) 30000000000;
       CallSetKeepAlive (ptr 2%positive) true;
       CallSetKeepAlivePeriod (ptr 2%positive) 3000000000]
  ∧ tcpConns (SetTimeouts os_accept (ptr 2%positive) net0).1 !! 2%positive
    = Some (mkTCPConn (Some 30000000000) true (Some 3000000000)).
Proof.
  destruct (SetTimeouts_all_succeed os_accept (ptr 2%positive) net0
              (SetUserTimeout os_accept (ptr 2%positive) 30000000000 net0).1
              (SetKeepAlive os_accept (ptr 2%positive) true
                 (SetUserTimeout os_accept (ptr 2%positive) 30000000000 net0).1).1
              (SetTimeouts os_accept (ptr 2%positive) net0).1)
    as (H1 & H2 & a & Ha & H3); [reflexivity | reflexivity | reflexivity |].
  inversion Ha; subst a.
  split; [exact H1 | split; [exact H2 | exact H3]].
Defined.

Lemma ExtractConn_returns_inner_TCPConn_witness :
  ExtractConn (tlsConnOf (ptr 1%positive)) net0 = (net0, Returns (ptr 2%positive, nil_error))
  ∧ tcpConns (SetTimeouts os_accept (ptr 2%positive) net0).1 !! 2%positive
    = Some (mkTCPConn (Some 30000000000) true (Some 3000000000)).
Proof.
  destruct (ExtractConn_returns_inner_TCPConn os_accept net0 1%positive
              [("conn", FConn (TCPConnOf (ptr 2%positive))); ("isClient", FBool true)]
              (ptr 2%positive))
    as [Hextract Hset]; [reflexivity | reflexivity |].
  split; [exact Hextract|].
  destruct (Hset (SetTimeouts os_accept (ptr 2%positive) net0).1)
    as (_ & a' & Ha & Hsock); [reflexivity|].
  inversion Ha; subst a'. exact Hsock.
Defined.

Lemma ExtractConn_rejects_non_tls_witness :
  ExtractConn (TCPConnOf (ptr 2%positive)) net0
  = (net0, Returns (null, errorString "Connection is not a tls.Conn"))
  ∧ ExtractConn nilConn net0
    = (net0, Returns (null, errorString "Connection is not a tls.Conn")).
Proof.
  split; apply (proj1 ExtractConn_rejects_non_tls); intros p; discriminate.
Defined.

Lemma ExtractConn_rejects_non_TCP_witness :
  ExtractConn (tlsConnOf (ptr 3%positive)) net0
  = (net0, Returns (null, errorString "Connection is not a net.TCPConn")).
Proof.
  apply (ExtractConn_rejects_non_TCP net0 3%positive
           [("conn", FConn (otherConnOf "*net.UnixConn" (ptr 4%positive)))]
           (FConn (otherConnOf "*net.UnixConn" (ptr 4%positive))));
    [reflexivity | reflexivity | intros q; discriminate].
Defined.

Section TimeoutFailures.
Variable os_reject : NetWorld -> SockCall -> error.

(** What the step that follows a successful [SetUserTimeout] finds on the
    socket. *)
Lemma user_timeout_set conn w w1 :
  SetUserTimeout os_reject conn 30000000000 w = (w1, nil_error) →
  ∃ a s, conn = ptr a ∧ tcpConns w1 !! a = Some s ∧ userTimeout s = Some 30000000000.
Proof.
  unfold SetUserTimeout. intros H.
  apply setsockopt_accepted in H as (a & s & -> & Hs & E).
  eexists a, _. split; [done|]. rewrite E, lookup_insert_eq. done.
Qed.

Lemma keepalive_set conn w1 w2 a s :
  SetKeepAlive os_reject conn true w1 = (w2, nil_error) →
  conn = ptr a → tcpConns w1 !! a = Some s →
  tcpConns w2 !! a = Some (mkTCPConn (userTimeout s) true (keepAlivePeriod s)).
Proof.
  unfold SetKeepAlive. intros H -> Hs.
  apply setsockopt_accepted in H as (a' & s' & ? & Hs' & E). simplify_eq.
  rewrite E, lookup_insert_eq. done.
Qed.

(** C4. The first step of [SetTimeouts] that fails ends the call: its
    error is returned, the later steps are not called, and nothing is
    called to undo the earlier ones, whose settings stay on the socket. In
    particular, when [SetKeepAlive] fails, [SetKeepAlivePeriod] is not
    called and the user timeout of 30 s is still set. *)
Theorem SetTimeouts_first_failure conn w :
  (∀ w1 e,
     SetUserTimeout os_reject conn (30 * 1000000000) w = (w1, e) → e ≠ nil_error →
     SetTimeouts os_reject conn w = (w1, e)
     ∧ sockCalls w1 = sockCalls w ++ [CallSetUserTimeout conn (30 * 1000000000)])
  ∧ (∀ w1 w2 e,
     SetUserTimeout os_reject conn (30 * 1000000000) w = (w1, nil_error) →
     SetKeepAlive os_reject conn true w1 = (w2, e) → e ≠ nil_error →
     SetTimeouts os_reject conn w = (w2, e)
     ∧ sockCalls w2 = sockCalls w ++ [CallSetUserTimeout conn (30 * 1000000000);
                                      CallSetKeepAlive conn true]
     ∧ ∃ a s, conn = ptr a ∧ tcpConns w2 !! a = Some s
              ∧ userTimeout s = Some (30 * 1000000000))
  ∧ (∀ w1 w2 w3 e,
     SetUserTimeout os_reject conn (30 * 1000000000) w = (w1, nil_error) →
     SetKeepAlive os_reject conn true w1 = (w2, nil_error) →
     SetKeepAlivePeriod os_reject conn (3 * 1000000000) w2 = (w3, e) → e ≠ nil_error →
     SetTimeouts os_reject conn w = (w3, e)
     ∧ sockCalls w3 = sockCalls w ++ [CallSetUserTimeout conn (30 * 1000000000);
                                      CallSetKeepAlive conn true;
                                      CallSetKeepAlivePeriod conn (3 * 1000000000)]
     ∧ ∃ a s, conn = ptr a ∧ tcpConns w3 !! a = Some s
              ∧ userTimeout s = Some (30 * 1000000000) ∧ keepAlive s = true).
Proof.
  change (30 * 1000000000) with 30000000000. change (3 * 1000000000) with 3000000000.
  split; [|split].
  - intros w1 e H1 He. apply is_err_true in He.
    split; [by rewrite SetTimeouts_steps, H1, He|].
    by apply setsockopt_trace in H1 as [-> _].
  - intros w1 w2 e H1 H2 He. apply is_err_true in He.
    split; [by rewrite SetTimeouts_steps, H1; simpl; rewrite H2, He|].
    assert (Hsame : tcpConns w2 = tcpConns w1)
      by apply (setsockopt_rejected _ _ _ _ _ _ _ H2 He).
    split.
    + apply setsockopt_trace in H2 as [-> _]. apply setsockopt_trace in H1 as [-> _].
      by rewrite <- app_assoc.
    + rewrite Hsame. by apply user_timeout_set in H1.
  - intros w1 w2 w3 e H1 H2 H3 He. apply is_err_true in He.
    split; [by rewrite SetTimeouts_steps, H1; simpl; rewrite H2; simpl; rewrite H3, He|].
    assert (Hsame : tcpConns w3 = tcpConns w2)
      by apply (setsockopt_rejected _ _ _ _ _ _ _ H3 He).
    split.
    + apply setsockopt_trace in H3 as [-> _]. apply setsockopt_trace in H2 as [-> _].
      apply setsockopt_trace in H1 as [-> _]. by rewrite <- !app_assoc.
    + rewrite Hsame. apply user_timeout_set in H1 as (a & s & Ha & Hs & Hu).
      exists a. eexists. split; [done|].
      split; [by apply (keepalive_set _ _ _ _ _ H2 Ha Hs)|]. done.
Qed.

(** C5, as amended. An error returned by [SetTimeouts] is, unchanged, the
    error that one of its three operations returned, namely the last one
    it called; [SetTimeouts] adds no context of its own to it. *)
Theorem SetTimeouts_error_verbatim conn w w' e :
  SetTimeouts os_reject conn w = (w', e) → e ≠ nil_error →
  SetUserTimeout os_reject conn (30 * 1000000000) w = (w', e)
  ∨ (∃ w1, SetUserTimeout os_reject conn (30 * 1000000000) w = (w1, nil_error)
           ∧ SetKeepAlive os_reject conn true w1 = (w', e))
  ∨ (∃ w1 w2, SetUserTimeout os_reject conn (30 * 1000000000) w = (w1, nil_error)
              ∧ SetKeepAlive os_reject conn true w1 = (w2, nil_error)
              ∧ SetKeepAlivePeriod os_reject conn (3 * 1000000000) w2 = (w', e)).
Proof.
  change (30 * 1000000000) with 30000000000. change (3 * 1000000000) with 3000000000.
  rewrite SetTimeouts_steps. intros H He.
  destruct (SetUserTimeout _ _ _ w) as [w1 e1] eqn:H1.
  destruct (is_err e1) eqn:E1; [left; congruence|].
  apply is_err_nil in E1 as ->. right.
  destruct (SetKeepAlive _ _ _ w1) as [w2 e2] eqn:H2.
  destruct (is_err e2) eqn:E2; [left; exists w1; split; congruence|].
  apply is_err_nil in E2 as ->. right. exists w1, w2.
  destruct (SetKeepAlivePeriod _ _ _ w2) as [w3 e3] eqn:H3.
  destruct (is_err e3) eqn:E3; [split; [done|split; congruence]|].
  congruence.
Qed.
End TimeoutFailures.

Lemma SetTimeouts_first_failure_witness :
  SetTimeouts os_reject_keepalive (ptr 2%positive) net0
  = ((SetTimeouts os_reject_keepalive (ptr 2%positive) net0).1, set_failed)
  ∧ sockCalls (SetTimeouts os_reject_keepalive (ptr 2%positive) net0).1
    = [CallSetUserTimeout (ptr 2%positive) 30000000000;
       CallSetKeepAlive (ptr 2%positive) true]
  ∧ ∃ s, tcpConns (SetTimeouts os_reject_keepalive (ptr 2%positive) net0).1 !! 2%positive
         = Some s
         ∧ userTimeout s = Some 30000000000.
Proof.
  destruct (proj1 (proj2 (SetTimeouts_first_failure os_reject_keepalive (ptr 2%positive) net0))
              (SetUserTimeout os_reject_keepalive (ptr 2%positive) 30000000000 net0).1
              (SetTimeouts os_reject_keepalive (ptr 2%positive) net0).1
              set_failed)
    as (H1 & H2 & a & s & Ha & Hs & Hu); [reflexivity | reflexivity | discriminate |].
  inversion Ha; subst a.
  split; [exact H1 | split; [exact H2 | exists s; split; [exact Hs | exact Hu]]].
Defined.

Lemma SetTimeouts_error_verbatim_witness :
  SetUserTimeout os_reject_period (ptr 2%positive) (30 * 1000000000) net0
  = ((SetTimeouts os_reject_period (ptr 2%positive) net0).1, set_failed)
  ∨ (∃ w1, SetUserTimeout os_reject_period (ptr 2%positive) (30 * 1000000000) net0
           = (w1, nil_error)
           ∧ SetKeepAlive os_reject_period (ptr 2%positive) true w1
             = ((SetTimeouts os_reject_period (ptr 2%positive) net0).1, set_failed))
  ∨ (∃ w1 w2, SetUserTimeout os_reject_period (ptr 2%positive) (30 * 1000000000) net0
              = (w1, nil_error)
              ∧ SetKeepAlive os_reject_period (ptr 2%positive) true w1 = (w2, nil_error)
              ∧ SetKeepAlivePeriod os_reject_period (ptr 2%positive) (3 * 1000000000) w2
                = ((SetTimeouts os_reject_period (ptr 2%positive) net0).1, set_failed)).
Proof.
  apply (SetTimeouts_error_verbatim os_reject_period (ptr 2%positive) net0
           (SetTimeouts os_reject_period (ptr 2%positive) net0).1 set_failed);
    [reflexivity | discriminate].
Defined.

(** C5, as stated, fails: the error returned when [SetKeepAlive] fails and
    the one returned when [SetKeepAlivePeriod] fails are the same value,
    the error of the operation itself, so it does not tell which of the
    steps failed. *)
Lemma SetTimeouts_error_does_not_name_step :
  (SetTimeouts os_reject_keepalive (ptr 2%positive) net0).2 = set_failed
  ∧ (SetTimeouts os_reject_period (ptr 2%positive) net0).2 = set_failed
  ∧ sockCalls (SetTimeouts os_reject_keepalive (ptr 2%positive) net0).1
    = [CallSetUserTimeout (ptr 2%positive) 30000000000;
       CallSetKeepAlive (ptr 2%positive) true]
  ∧ sockCalls (SetTimeouts os_reject_period (ptr 2%positive) net0).1
    = [CallSetUserTimeout (ptr 2%positive) 30000000000;
       CallSetKeepAlive (ptr 2%positive) true;
       CallSetKeepAlivePeriod (ptr 2%positive) 3000000000]
  ∧ (SetKeepAlive os_reject_keepalive (ptr 2%positive) true
       (SetUserTimeout os_reject_keepalive (ptr 2%positive) 30000000000 net0).1).2
    = (SetTimeouts os_reject_keepalive (ptr 2%positive) net0).2.
Proof. repeat split; reflexivity. Qed.

(** * Properties of the housekeeping task *)

Section DaemonFacts.
Variable X : Externals.

Lemma token_type_check (op : Operation) :
  negb (bool_decide (opType op = ClusterJoinToken))
  && negb (bool_decide (opType op = CertificateAddToken)) = false
  ↔ token_type op.
Proof.
  unfold token_type. rewrite andb_false_iff, !negb_false_iff, !bool_decide_eq_true. done.
Qed.

Lemma assert_Time_Some (v : option any) (t : Time) :
  assert_Time v = Some t ↔ v = Some (AnyTime t).
Proof.
  destruct v as [[]|]; simpl; split; intros H; by simplify_eq.
Qed.

Lemma assert_Time_None (v : option any) :
  assert_Time v = None ↔ v = None ∨ ∃ x, v = Some x ∧ ∀ t, x ≠ AnyTime t.
Proof.
  destruct v as [x|]; simpl.
  - split.
    + intros H. right. exists x. split; [done|]. intros t ->. done.
    + intros [?|(y & ? & Hy)]; [done|]. simplify_eq. destruct y; try done.
      by destruct (Hy t).
  - split; [by left | done].
Qed.

(** The scan reads the clock and nothing else; what it appends to the list
    are token operations of the clone whose expiry lies before a reading
    of the clock taken during the scan, and it appends every token
    operation whose expiry lies before all of these readings. *)
Lemma scan_operations_spec ops acc w w' res :
  scan_operations X ops acc w = (w', res) →
  registry w' = registry w ∧ logs w' = logs w ∧ opCalls w' = opCalls w
  ∧ (clockReads w ≤ clockReads w')%nat
  ∧ ∃ sel, res = acc ++ sel
      ∧ (∀ p, p ∈ sel →
           p ∈ ops ∧ token_type p.2
           ∧ ∃ expiry k, assert_Time (opMetadata p.2 !! "expiresAt") = Some expiry
               ∧ (clockReads w ≤ k < clockReads w')%nat
               ∧ expiry < wall_clock X k)
      ∧ (∀ p expiry, p ∈ ops → token_type p.2 →
           assert_Time (opMetadata p.2 !! "expiresAt") = Some expiry →
           (∀ k, (clockReads w ≤ k < clockReads w')%nat → expiry < wall_clock X k) →
           p ∈ sel).
Proof.
  revert acc w. induction ops as [|op rest IH]; intros acc w H.
  - simpl in H. unfold ret in H. simplify_eq. repeat split; [lia|].
    exists []. rewrite app_nil_r. split; [done|]. split.
    + intros p Hp. by apply elem_of_nil in Hp.
    + intros p e Hp. by apply elem_of_nil in Hp.
  - simpl in H.
    destruct (negb (bool_decide (opType op.2 = ClusterJoinToken))
              && negb (bool_decide (opType op.2 = CertificateAddToken))) eqn:Hty.
    { (* not a token operation *)
      apply IH in H as (Hr & Hl & Hc & Hk & sel & -> & Hsound & Hcomplete).
      repeat split; try done. exists sel. split; [done|]. split.
      - intros p Hp. destruct (Hsound p Hp) as (? & ? & ?).
        split; [by apply elem_of_cons; right | done].
      - intros p e Hp Htok He Hall. apply elem_of_cons in Hp as [->|Hp].
        + apply token_type_check in Htok. congruence.
        + by apply (Hcomplete p e). }
    apply token_type_check in Hty.
    destruct (assert_Time (opMetadata op.2 !! "expiresAt")) as [expiry|] eqn:Hexp.
    2:{ (* no usable expiry *)
      apply IH in H as (Hr & Hl & Hc & Hk & sel & -> & Hsound & Hcomplete).
      repeat split; try done. exists sel. split; [done|]. split.
      - intros p Hp. destruct (Hsound p Hp) as (? & ? & ?).
        split; [by apply elem_of_cons; right | done].
      - intros p e Hp Htok He Hall. apply elem_of_cons in Hp as [->|Hp].
        + congruence.
        + by apply (Hcomplete p e). }
    unfold bind, time_Now in H.
    destruct (After (wall_clock X (clockReads w)) expiry) eqn:Hafter.
    + (* expired *)
      apply IH in H as (Hr & Hl & Hc & Hk & sel & -> & Hsound & Hcomplete).
      simpl in *. repeat split; try done; [lia|].
      exists (op :: sel). split; [by rewrite <- app_assoc|]. split.
      * intros p Hp. apply elem_of_cons in Hp as [->|Hp].
        -- split; [by apply elem_of_cons; left|]. split; [done|].
           exists expiry, (clockReads w). split; [done|]. split; [lia|].
           unfold After in Hafter. by apply Z.ltb_lt in Hafter.
        -- destruct (Hsound p Hp) as (? & ? & e & k & ? & ? & ?).
           split; [by apply elem_of_cons; right|]. split; [done|].
           exists e, k. split; [done|]. split; [lia|done].
      * intros p e Hp Htok He Hall. apply elem_of_cons in Hp as [->|Hp].
        -- by apply elem_of_cons; left.
        -- apply elem_of_cons; right. apply (Hcomplete p e); try done.
           intros k Hk'. apply Hall. lia.
    + (* not yet expired *)
      apply IH in H as (Hr & Hl & Hc & Hk & sel & -> & Hsound & Hcomplete).
      simpl in *. repeat split; try done; [lia|].
      exists sel. split; [done|]. split.
      * intros p Hp. destruct (Hsound p Hp) as (? & ? & e & k & ? & ? & ?).
        split; [by apply elem_of_cons; right|]. split; [done|].
        exists e, k. split; [done|]. split; [lia|done].
      * intros p e Hp Htok He Hall. apply elem_of_cons in Hp as [->|Hp].
        -- exfalso. rewrite Hexp in He. simplify_eq.
           assert (e < wall_clock X (clockReads w)) as Hlt by (apply Hall; lia).
           unfold After in Hafter. apply Z.ltb_ge in Hafter. lia.
        -- apply (Hcomplete p e); try done. intros k Hk'. apply Hall. lia.
Qed.
End DaemonFacts.

Section HousekeepingFacts.
Variable X : Externals.

Lemma erase_status_with_status st op :
  erase_status (with_status st op) = erase_status op.
Proof. by destruct op. Qed.

Lemma set_status_erased id st w i :
  erase_status <$> registry (set_status id st w) !! i = erase_status <$> registry w !! i.
Proof.
  unfold set_status, with_registry. simpl. rewrite lookup_alter.
  case_decide; [subst|done].
  destruct (registry w !! i); simpl; [|done]. by rewrite erase_status_with_status.
Qed.

Lemma set_status_other id st w i :
  i ≠ id → registry (set_status id st w) !! i = registry w !! i.
Proof.
  intros Hne. unfold set_status, with_registry. simpl. by rewrite lookup_alter_ne.
Qed.

Lemma Operation_Cancel_spec id w w' e :
  Operation_Cancel X id w = (w', e) →
  e = Cancel_err X w id
  ∧ opCalls w' = opCalls w ++ [CallCancel id]
  ∧ logs w' = logs w ∧ clockReads w' = clockReads w
  ∧ (∀ i, erase_status <$> registry w' !! i = erase_status <$> registry w !! i)
  ∧ (∀ i, i ≠ id → registry w' !! i = registry w !! i).
Proof.
  unfold Operation_Cancel. intros H.
  destruct (Cancel_err X w id) eqn:E; simplify_eq; simpl; repeat split; try done.
  - intros i. apply (set_status_erased id Cancelled (log_opcall (CallCancel id) w) i).
  - intros i Hi. by apply (set_status_other id Cancelled (log_opcall (CallCancel id) w) i).
Qed.

(** The loop of [opRun] calls [Cancel] on the operations of the list, in
    the order of the list, and nothing else; it changes no operation but in
    its status, touches no operation outside the list, and all it logs are
    debug messages. *)
Lemma cancel_expired_spec l w w' u :
  cancel_expired X l w = (w', u) →
  opCalls w' = opCalls w ++ (CallCancel <$> l.*1)
  ∧ clockReads w' = clockReads w
  ∧ (∀ i, erase_status <$> registry w' !! i = erase_status <$> registry w !! i)
  ∧ (∀ i, i ∉ l.*1 → registry w' !! i = registry w !! i)
  ∧ ∃ new, logs w' = logs w ++ new
           ∧ ∀ entry, entry ∈ new →
               logLevel entry = LevelDebug
               ∧ logMessage entry = "Failed removing expired token".
Proof.
  revert w. induction l as [|op rest IH]; intros w H.
  - simpl in H. unfold ret in H. simplify_eq. simpl. rewrite app_nil_r.
    repeat split; try done. exists []. rewrite app_nil_r. split; [done|].
    intros entry He. by apply elem_of_nil in He.
  - simpl in H. unfold bind in H.
    destruct (Operation_Cancel X op.1 w) as [w1 e] eqn:Hc.
    apply Operation_Cancel_spec in Hc as (_ & Hcalls & Hlogs & Hclock & Her & Hoth).
    destruct (is_err e).
    + unfold logger_Debug, modify in H.
      apply IH in H as (Hcalls' & Hclock' & Her' & Hoth' & new & Hlogs' & Hnew).
      simpl in *. split; [by rewrite Hcalls', Hcalls, <- app_assoc|].
      split; [congruence|]. split; [intros i; by rewrite Her', Her|].
      split.
      * intros i Hi. apply not_elem_of_cons in Hi as [Hi1 Hi2].
        rewrite Hoth' by done. by apply Hoth.
      * eexists (_ :: new). split; [by rewrite Hlogs', Hlogs, <- app_assoc|].
        intros entry He. apply elem_of_cons in He as [->|He]; [done|by apply Hnew].
    + unfold ret in H.
      apply IH in H as (Hcalls' & Hclock' & Her' & Hoth' & new & Hlogs' & Hnew).
      simpl in *. split; [by rewrite Hcalls', Hcalls, <- app_assoc|].
      split; [congruence|]. split; [intros i; by rewrite Her', Her|].
      split.
      * intros i Hi. apply not_elem_of_cons in Hi as [Hi1 Hi2].
        rewrite Hoth' by done. by apply Hoth.
      * exists new. split; [by rewrite Hlogs', Hlogs|]. done.
Qed.

(** [autoRemoveExpiredTokens] with its binds unfolded. *)
Lemma autoRemoveExpiredTokens_steps w :
  autoRemoveExpiredTokens X w =
    let (ws, expired) := scan_operations X (range_order X (registry w)) [] w in
    if (length expired =? 0)%nat then (ws, nil_error) else
    let wc := log_opcall (CallOperationCreate OperationClassTask RemoveExpiredTokens) ws in
    match OperationCreate_err X ws with
    | nil_error =>
        let hid := uuid_New X ws in
        let wi :=
          add_log (mkLogEntry LevelInfo "Removing expired tokens" [])
            (with_registry
               (insert hid (mkOperation OperationClassTask RemoveExpiredTokens ∅ Pending)) wc) in
        let (wst, err) := Operation_Start X (mkOperationHandle hid (opRun X expired)) wi in
        if is_err err
        then (add_log (mkLogEntry LevelError "Failed to remove expired tokens"
                         [("err", CtxErr err)]) wst, err)
        else (add_log (mkLogEntry LevelDebug "Done removing expired tokens" [])
                (log_opcall (CallWait hid) wst), nil_error)
    | _ =>
        (add_log (mkLogEntry LevelError "Failed to start remove expired tokens operation"
                    [("err", CtxErr (OperationCreate_err X ws))]) wc,
         OperationCreate_err X ws)
    end.
Proof.
  unfold autoRemoveExpiredTokens, bind, operations_Clone, gets.
  destruct (scan_operations _ _ _ _) as [ws expired].
  destruct (length expired =? 0)%nat; [done|].
  unfold OperationCreate.
  destruct (OperationCreate_err X ws) eqn:E; try done.
  unfold logger_Info, modify, logger_Error, Operation_Wait, logger_Debug, ret.
  destruct (Operation_Start _ _ _) as [wst err].
  by destruct (is_err err).
Qed.

(** A start that succeeds runs the loop of [opRun] between the report of
    the start and the report of the success. *)
Lemma Operation_Start_spec hid expired w w' e :
  Operation_Start X (mkOperationHandle hid (opRun X expired)) w = (w', e) →
  (e ≠ nil_error ∧ e = Start_err X w hid ∧ w' = log_opcall (CallStart hid) w)
  ∨ (e = nil_error ∧ Start_err X w hid = nil_error
     ∧ w' = set_status hid Success
              (cancel_expired X expired
                 (set_status hid Running (log_opcall (CallStart hid) w))).1).
Proof.
  unfold Operation_Start. simpl. intros H.
  destruct (Start_err X w hid) eqn:E.
  - right. unfold opRun, bind, ret in H.
    destruct (cancel_expired X expired _) as [w2 u]. simpl in H. by simplify_eq.
  - left. by simplify_eq.
  - left. by simplify_eq.
  - left. by simplify_eq.
Qed.
End HousekeepingFacts.

Section HousekeepingRuns.
Variable X : Externals.

(** The four ways a run of [autoRemoveExpiredTokens] can go: nothing has
    expired; the housekeeping operation cannot be created; it cannot be
    started; it runs. *)
Lemma autoRemoveExpiredTokens_run w w' e :
  autoRemoveExpiredTokens X w = (w', e) →
  ∃ ws expired,
    scan_operations X (range_order X (registry w)) [] w = (ws, expired)
    ∧ clockReads w' = clockReads ws
    ∧ ((expired = [] ∧ e = nil_error ∧ w' = ws)
       ∨ (expired ≠ [] ∧ e ≠ nil_error ∧ e = OperationCreate_err X ws
          ∧ registry w' = registry w
          ∧ opCalls w'
            = opCalls w ++ [CallOperationCreate OperationClassTask RemoveExpiredTokens]
          ∧ logs w'
            = logs w ++ [mkLogEntry LevelError
                           "Failed to start remove expired tokens operation"
                           [("err", CtxErr e)]])
       ∨ (expired ≠ [] ∧ e ≠ nil_error ∧ OperationCreate_err X ws = nil_error
          ∧ e = Start_err X (housekeeping_created (uuid_New X ws) ws) (uuid_New X ws)
          ∧ opCalls w'
            = opCalls w ++ [CallOperationCreate OperationClassTask RemoveExpiredTokens;
                            CallStart (uuid_New X ws)]
          ∧ logs w'
            = logs w ++ [mkLogEntry LevelInfo "Removing expired tokens" [];
                         mkLogEntry LevelError "Failed to remove expired tokens"
                           [("err", CtxErr e)]])
       ∨ (expired ≠ [] ∧ e = nil_error ∧ OperationCreate_err X ws = nil_error
          ∧ Start_err X (housekeeping_created (uuid_New X ws) ws) (uuid_New X ws) = nil_error
          ∧ opCalls w'
            = opCalls w ++ [CallOperationCreate OperationClassTask RemoveExpiredTokens;
                            CallStart (uuid_New X ws)]
                        ++ (CallCancel <$> expired.*1) ++ [CallWait (uuid_New X ws)]
          ∧ (∃ hop, registry w' !! uuid_New X ws = Some hop
                    ∧ opStatus hop = Success
                    ∧ erase_status hop
                      = mkOperation OperationClassTask RemoveExpiredTokens ∅ Pending)
          ∧ (∀ i, i ≠ uuid_New X ws → i ∉ expired.*1 →
                  registry w' !! i = registry w !! i)
          ∧ (∀ i, i ≠ uuid_New X ws →
                  erase_status <$> registry w' !! i = erase_status <$> registry w !! i))).
Proof.
  rewrite autoRemoveExpiredTokens_steps. intros H.
  destruct (scan_operations X (range_order X (registry w)) [] w) as [ws expired] eqn:Hscan.
  exists ws, expired. split; [done|].
  destruct (scan_operations_spec X _ _ _ _ _ Hscan) as (Hr & Hl & Hc & _).
  destruct expired as [|p expired'] eqn:Hexp.
  { simpl in H. simplify_eq. split; [done|]. by left. }
  rewrite <- Hexp in *.
  assert (expired ≠ []) as Hne by (rewrite Hexp; done).
  replace (length expired =? 0)%nat with false in H by (rewrite Hexp; done).
  clear Hexp. simpl in H.
  destruct (OperationCreate_err X ws) eqn:Hcreate.
  2,3,4: simplify_eq; simpl; split; [done|]; right; left;
         rewrite Hr, Hl, Hc; repeat split; done.
  set (hid := uuid_New X ws) in *.
  destruct (Operation_Start X _ _) as [wst err] eqn:Hstart.
  apply Operation_Start_spec in Hstart as [(Herr & Hse & ->)|(-> & Hse & ->)].
  - apply is_err_true in Herr as Herr'. rewrite Herr' in H. simplify_eq. simpl.
    split; [done|]. right; right; left.
    rewrite Hl, Hc, <- !app_assoc. repeat split; done.
  - simpl in H. simplify_eq.
    destruct (cancel_expired X expired _) as [w2 u] eqn:Hcancel.
    apply cancel_expired_spec in Hcancel as (Hcalls & Hclock & Her & Hoth & _).
    simpl in *. split; [done|]. right; right; right.
    split; [done|]. split; [done|]. split; [done|]. split; [done|].
    split; [|split; [|split]].
    + rewrite Hcalls. simpl. rewrite Hc, <- !app_assoc. done.
    + pose proof (Her hid) as Hh. rewrite lookup_alter_eq, lookup_insert_eq in Hh.
      rewrite lookup_alter_eq.
      destruct (registry w2 !! hid) as [hop|]; [|done].
      simpl in Hh. exists (with_status Success hop). split; [done|]. split; [done|].
      rewrite erase_status_with_status. apply (inj Some) in Hh. by rewrite Hh.
    + intros i Hi Hin. assert (hid ≠ i) as Hi' by congruence.
      rewrite lookup_alter_ne by done. rewrite Hoth by done.
      rewrite lookup_alter_ne by done. rewrite lookup_insert_ne by done. by rewrite Hr.
    + intros i Hi. assert (hid ≠ i) as Hi' by congruence.
      rewrite lookup_alter_ne by done. rewrite Her.
      rewrite lookup_alter_ne by done. rewrite lookup_insert_ne by done. by rewrite Hr.
Qed.

(** Under a range order that is a permutation of the registry, the pairs
    the loop visits are the operations of the registry. *)
Lemma range_order_lookup (m : gmap string Operation) (p : string * Operation) :
  range_order X m ≡ₚ map_to_list m →
  p ∈ range_order X m ↔ m !! p.1 = Some p.2.
Proof.
  intros Hperm. rewrite Hperm. destruct p as [i op]. apply elem_of_map_to_list.
Qed.
End HousekeepingRuns.

Section HousekeepingClaims.
Variable X : Externals.

(** The scan reads the clock at most once for each operation it visits. *)
Lemma scan_operations_reads ops acc w w' res :
  scan_operations X ops acc w = (w', res) →
  (clockReads w' ≤ clockReads w + length ops)%nat.
Proof.
  revert acc w. induction ops as [|op rest IH]; intros acc w H; simpl in H.
  - unfold ret in H. simplify_eq. simpl. lia.
  - destruct (negb (bool_decide (opType op.2 = ClusterJoinToken))
              && negb (bool_decide (opType op.2 = CertificateAddToken))).
    { apply IH in H. simpl. lia. }
    destruct (assert_Time (opMetadata op.2 !! "expiresAt")) as [expiry|].
    2:{ apply IH in H. simpl. lia. }
    unfold bind, time_Now in H.
    destruct (After (wall_clock X (clockReads w)) expiry);
      apply IH in H; simpl in *; lia.
Qed.

(** What the scan selects, in terms of the registry: only token operations
    with an expiry that lies before a reading of the clock taken during the
    scan, and all those whose expiry lies before every such reading. *)
Lemma scan_selects w ws expired :
  range_order X (registry w) ≡ₚ map_to_list (registry w) →
  scan_operations X (range_order X (registry w)) [] w = (ws, expired) →
  (∀ id, id ∈ expired.*1 →
     ∃ op expiry k, registry w !! id = Some op ∧ token_type op
       ∧ opMetadata op !! "expiresAt" = Some (AnyTime expiry)
       ∧ (clockReads w ≤ k < clockReads ws)%nat ∧ expiry < wall_clock X k)
  ∧ (∀ id op expiry, registry w !! id = Some op → token_type op →
       opMetadata op !! "expiresAt" = Some (AnyTime expiry) →
       (∀ k, (clockReads w ≤ k < clockReads ws)%nat → expiry < wall_clock X k) →
       id ∈ expired.*1).
Proof.
  intros Hperm Hscan.
  apply scan_operations_spec in Hscan
    as (_ & _ & _ & _ & sel & -> & Hsound & Hcomplete). simpl.
  split.
  - intros id Hid. apply list_elem_of_fmap in Hid as (p & -> & Hp).
    destruct (Hsound p Hp) as (Hin & Htok & expiry & k & He & Hk & Hlt).
    apply (range_order_lookup X _ _ Hperm) in Hin. apply assert_Time_Some in He.
    by exists p.2, expiry, k.
  - intros id op expiry Hop Htok He Hall.
    apply (list_elem_of_fmap_2' fst _ (id, op)); [|done].
    apply (Hcomplete (id, op) expiry); simpl; try done.
    + by apply (range_order_lookup X _ (id, op) Hperm).
    + by apply assert_Time_Some.
Qed.


(** C9. When no token operation of the registry has an expiry that lies
    before a reading of the clock taken while the operations are visited
    (at most one reading for each), [autoRemoveExpiredTokens] returns nil
    and has left the registry and the log as they were and has called
    neither [OperationCreate] nor [Cancel] nor anything else of package
    [operations] that changes the registry. *)
Theorem autoRemoveExpiredTokens_nothing_expired w :
  range_order X (registry w) ≡ₚ map_to_list (registry w) →
  (∀ id op expiry k, registry w !! id = Some op →
     opType op = ClusterJoinToken ∨ opType op = CertificateAddToken →
     opMetadata op !! "expiresAt" = Some (AnyTime expiry) →
     (clockReads w ≤ k < clockReads w + length (range_order X (registry w)))%nat →
     After (wall_clock X k) expiry = false) →
  ∃ w', autoRemoveExpiredTokens X w = (w', nil_error)
        ∧ registry w' = registry w ∧ logs w' = logs w ∧ opCalls w' = opCalls w.
Proof.
  intros Hperm Hfresh.
  destruct (autoRemoveExpiredTokens X w) as [w' e] eqn:Hrun. exists w'.
  destruct (autoRemoveExpiredTokens_run X _ _ _ Hrun)
    as (ws & expired & Hscan & Hclock & Hcases).
  destruct (scan_selects _ _ _ Hperm Hscan) as [Hsound _].
  assert (expired = []) as ->.
  { destruct expired as [|p rest]; [done|]. exfalso.
    destruct (Hsound p.1) as (op & expiry & k & Hop & Htok & He & Hk & Hlt).
    { simpl. apply elem_of_cons. by left. }
    apply scan_operations_reads in Hscan.
    assert (After (wall_clock X k) expiry = false) as Hnot
      by (apply (Hfresh p.1 op); [done|done|done|lia]).
    unfold After in Hnot. apply Z.ltb_ge in Hnot. lia. }
  destruct Hcases as [(_ & -> & ->)|[(Hne & _)|[(Hne & _)|(Hne & _)]]]; try done.
  by apply scan_operations_spec in Hscan as (? & ? & ? & _).
Qed.

(** C10. A token operation whose metadata has no entry "expiresAt", or an
    entry that is not a [time.Time], is not put on the list of expired
    tokens and [Cancel] is not called on it, whatever the clock says and
    however the run ends. *)
Theorem token_without_expiry_not_cancelled w w' e id op :
  range_order X (registry w) ≡ₚ map_to_list (registry w) →
  registry w !! id = Some op →
  (opMetadata op !! "expiresAt" = None
   ∨ (∃ v, opMetadata op !! "expiresAt" = Some v ∧ ∀ t, v ≠ AnyTime t)) →
  autoRemoveExpiredTokens X w = (w', e) →
  (id ∉ (scan_operations X (range_order X (registry w)) [] w).2.*1)
  ∧ ∃ new, opCalls w' = opCalls w ++ new ∧ CallCancel id ∉ new.
Proof.
  intros Hperm Hop Hmeta Hrun.
  destruct (autoRemoveExpiredTokens_run X _ _ _ Hrun)
    as (ws & expired & Hscan & Hclock & Hcases).
  destruct (scan_selects _ _ _ Hperm Hscan) as [Hsound _].
  assert (id ∉ expired.*1) as Hnot.
  { intros Hid. destruct (Hsound id Hid) as (op' & expiry & k & Hop' & _ & He & _).
    simplify_eq. destruct Hmeta as [Hm|(v & Hm & Hv)]; rewrite Hm in He; [done|].
    simplify_eq. by destruct (Hv expiry). }
  rewrite Hscan. split; [done|].
  destruct Hcases as [(-> & _ & ->)|[(_ & _ & _ & _ & Hc & _)|[(_ & _ & _ & _ & Hc & _)|Hran]]].
  - exists []. rewrite app_nil_r. split; [|by intros ?%elem_of_nil].
    by apply scan_operations_spec in Hscan as (_ & _ & ? & _).
  - eexists. split; [exact Hc|]. intros Hin%list_elem_of_singleton. done.
  - eexists. split; [exact Hc|].
    intros Hin. apply elem_of_cons in Hin as [?|Hin%list_elem_of_singleton]; done.
  - destruct Hran as (_ & _ & _ & _ & Hc & _). eexists. split; [exact Hc|].
    intros Hin. apply elem_of_cons in Hin as [?|Hin]; [done|].
    apply elem_of_cons in Hin as [?|Hin]; [done|].
    apply elem_of_app in Hin as [Hin|Hin%list_elem_of_singleton]; [|done].
    apply list_elem_of_fmap in Hin as (i & Hi & Hin). by simplify_eq.
Qed.
End HousekeepingClaims.


Lemma autoRemoveExpiredTokens_nothing_expired_witness :
  ∃ w', autoRemoveExpiredTokens X0 daemon_quiet = (w', nil_error)
        ∧ registry w' = registry daemon_quiet ∧ logs w' = logs daemon_quiet
        ∧ opCalls w' = opCalls daemon_quiet.
Proof.
  apply (autoRemoveExpiredTokens_nothing_expired X0 daemon_quiet).
  - reflexivity.
  - intros id op expiry k Hop Htok He Hk. revert expiry He. revert Htok. revert id op Hop.
    refine (proj2 (map_Forall_to_list _ _) _).
    vm_compute in Hk.
    let l := eval vm_compute in (map_to_list (registry daemon_quiet)) in
    change (map_to_list (registry daemon_quiet)) with l.
    repeat constructor; simpl; intros Htok expiry He; vm_compute in He;
      first [ discriminate He
            | destruct Htok; discriminate
            | injection He as <-; unfold After; apply Z.ltb_ge; lia ].
Defined.

Lemma token_without_expiry_not_cancelled_witness :
  ("tok-string" ∉ (scan_operations X0 (range_order X0 (registry daemon0)) [] daemon0).2.*1)
  ∧ ∃ new, opCalls (autoRemoveExpiredTokens X0 daemon0).1 = opCalls daemon0 ++ new
           ∧ CallCancel "tok-string" ∉ new.
Proof.
  apply (token_without_expiry_not_cancelled X0 daemon0
           (autoRemoveExpiredTokens X0 daemon0).1 nil_error "tok-string"
           (token CertificateAddToken (<["expiresAt" := AnyString "2020-01-01"]> ∅))).
  - reflexivity.
  - vm_compute. reflexivity.
  - right. exists (AnyString "2020-01-01"). split; [reflexivity | intros t; discriminate].
  - vm_compute. reflexivity.
Defined.

Section Reporting.
Variable os_reject : NetWorld -> SockCall -> error.
Variable X : Externals.

(** C8, as amended. A failed type check of [ExtractConn] is returned with a
    message that names the mismatch; [SetTimeouts] returns nil only when
    none of its steps failed; a failure to create or to start the
    housekeeping operation is logged as an error and returned, and
    [autoRemoveExpiredTokens] returns no other error: a failed [Cancel] is
    logged as a debug message with the id of the operation and the loop
    goes on, and what [Wait] returns is discarded. *)
Theorem failures_returned_or_logged :
  (∀ conn w, (∀ p, conn ≠ tlsConnOf p) →
     (ExtractConn conn w).2 = Returns (null, errorString "Connection is not a tls.Conn"))
  ∧ (∀ w a s field,
       tlsConns w !! a = Some s → FieldByName s "conn" = Some field →
       (∀ q, field ≠ FConn (TCPConnOf q)) →
       (ExtractConn (tlsConnOf (ptr a)) w).2
       = Returns (null, errorString "Connection is not a net.TCPConn"))
  ∧ (∀ conn w w',
       SetTimeouts os_reject conn w = (w', nil_error) →
       ∃ w1 w2, SetUserTimeout os_reject conn (30 * 1000000000) w = (w1, nil_error)
                ∧ SetKeepAlive os_reject conn true w1 = (w2, nil_error)
                ∧ SetKeepAlivePeriod os_reject conn (3 * 1000000000) w2 = (w', nil_error))
  ∧ (∀ w w' e ws expired,
       autoRemoveExpiredTokens X w = (w', e) →
       scan_operations X (range_order X (registry w)) [] w = (ws, expired) →
       (expired ≠ [] → OperationCreate_err X ws ≠ nil_error →
          e = OperationCreate_err X ws
          ∧ logs w' = logs w ++ [mkLogEntry LevelError
                                   "Failed to start remove expired tokens operation"
                                   [("err", CtxErr e)]])
       ∧ (expired ≠ [] → OperationCreate_err X ws = nil_error →
          Start_err X (housekeeping_created (uuid_New X ws) ws) (uuid_New X ws) ≠ nil_error →
          e = Start_err X (housekeeping_created (uuid_New X ws) ws) (uuid_New X ws)
          ∧ logs w' = logs w ++ [mkLogEntry LevelInfo "Removing expired tokens" [];
                                 mkLogEntry LevelError "Failed to remove expired tokens"
                                   [("err", CtxErr e)]])
       ∧ (OperationCreate_err X ws = nil_error →
          Start_err X (housekeeping_created (uuid_New X ws) ws) (uuid_New X ws) = nil_error →
          e = nil_error))
  ∧ (∀ id op rest w w1 e,
       Operation_Cancel X id w = (w1, e) → e ≠ nil_error →
       cancel_expired X ((id, op) :: rest) w
       = cancel_expired X rest
           (add_log (mkLogEntry LevelDebug "Failed removing expired token"
                       [("err", CtxErr e); ("id", CtxString id)]) w1))
  ∧ (∀ l hid w, (opRun X l hid w).2 = nil_error).
Proof.
  change (30 * 1000000000) with 30000000000. change (3 * 1000000000) with 3000000000.
  split; [|split; [|split; [|split; [|split]]]].
  - intros conn w Hno. destruct conn as [|p|p|d p]; try done. by destruct (Hno p).
  - intros w a s field Hs Hf Hno. rewrite (ExtractConn_tls _ _ _ Hs), Hf.
    destruct field as [[|p|p|d p]|b|z|]; try done. by destruct (Hno p).
  - intros conn w w'. apply SetTimeouts_nil_steps.
  - intros w w' e ws expired Hrun Hscan.
    destruct (autoRemoveExpiredTokens_run X _ _ _ Hrun)
      as (ws' & expired' & Hscan' & _ & Hcases).
    rewrite Hscan in Hscan'. simplify_eq.
    destruct Hcases
      as [(-> & -> & ->)
         |[(_ & Hne & -> & _ & _ & Hlog)
          |[(_ & Hne & Hcr & -> & _ & Hlog)|(_ & -> & Hcr & Hst & _)]]].
    all: repeat split; done.
  - intros id op rest w w1 e Hc He. simpl. unfold bind. rewrite Hc.
    apply is_err_true in He. by rewrite He.
  - intros l hid w. unfold opRun, bind, ret. by destruct (cancel_expired X l w).
Qed.
End Reporting.

Lemma failures_returned_or_logged_witness :
  (autoRemoveExpiredTokens X_create_fails daemon0).2 = errorString "LXD is shutting down"
  ∧ logs (autoRemoveExpiredTokens X_create_fails daemon0).1
    = [mkLogEntry LevelError "Failed to start remove expired tokens operation"
         [("err", CtxErr (errorString "LXD is shutting down"))]].
Proof.
  destruct (failures_returned_or_logged os_accept X_create_fails)
    as (_ & _ & _ & H & _).
  destruct (H daemon0 (autoRemoveExpiredTokens X_create_fails daemon0).1
              (autoRemoveExpiredTokens X_create_fails daemon0).2
              (scan_operations X_create_fails
                 (range_order X_create_fails (registry daemon0)) [] daemon0).1
              (scan_operations X_create_fails
                 (range_order X_create_fails (registry daemon0)) [] daemon0).2)
    as (Hcreate & _).
  - vm_compute. reflexivity.
  - vm_compute. reflexivity.
  - destruct Hcreate as [He Hlog].
    + vm_compute. discriminate.
    + simpl. discriminate.
    + split; [exact He | exact Hlog].
Defined.

(** C8, as stated, fails: [Wait] fails and [autoRemoveExpiredTokens]
    returns nil without a trace of the error in the log; [Cancel] fails and
    [autoRemoveExpiredTokens] returns nil, the error being logged as a debug
    message only. *)
Lemma housekeeping_errors_dropped :
  (∀ w id, Wait_err X_wait_fails w id = errorString "context canceled")
  ∧ autoRemoveExpiredTokens X_wait_fails daemon0
    = ((autoRemoveExpiredTokens X_wait_fails daemon0).1, nil_error)
  ∧ opCalls (autoRemoveExpiredTokens X_wait_fails daemon0).1
    = [CallOperationCreate OperationClassTask RemoveExpiredTokens;
       CallStart "housekeeping"; CallCancel "tok-expired"; CallWait "housekeeping"]
  ∧ logs (autoRemoveExpiredTokens X_wait_fails daemon0).1
    = [mkLogEntry LevelInfo "Removing expired tokens" [];
       mkLogEntry LevelDebug "Done removing expired tokens" []]
  ∧ autoRemoveExpiredTokens X_cancel_fails daemon0
    = ((autoRemoveExpiredTokens X_cancel_fails daemon0).1, nil_error)
  ∧ logs (autoRemoveExpiredTokens X_cancel_fails daemon0).1
    = [mkLogEntry LevelInfo "Removing expired tokens" [];
       mkLogEntry LevelDebug "Failed removing expired token"
         [("err", CtxErr (errorString "Only running operations can be cancelled"));
          ("id", CtxString "tok-expired")];
       mkLogEntry LevelDebug "Done removing expired tokens" []].
Proof. repeat split; vm_compute; reflexivity. Qed.

(** * Further properties of package tcp *)

Section ExtractConnShape.

(** X1. [ExtractConn] returns a nil error only for a non-nil [*tls.Conn]
    whose field [conn] holds a [*net.TCPConn], and the handle it returns is
    the pointer held by that field. *)
Theorem ExtractConn_success_inv conn w p :
  (ExtractConn conn w).2 = Returns (p, nil_error) →
  ∃ a s, conn = tlsConnOf (ptr a) ∧ tlsConns w !! a = Some s
         ∧ FieldByName s "conn" = Some (FConn (TCPConnOf p)).
Proof.
  destruct conn as [|[|a]|q|d q]; try done.
  unfold ExtractConn, bind, reflect_Elem, gets, ret. simpl.
  destruct (tlsConns w !! a) as [s|] eqn:Hs; [|done].
  destruct (FieldByName s "conn") as [field|] eqn:Hf; [|done].
  destruct field as [[|q|q|d q]|b|z|]; simpl; try done.
  intros [= ->]. by exists a, s.
Qed.

(** X2. Whenever [ExtractConn] returns an error, the handle it returns is
    nil and the error is one of two messages, which tell the two mismatches
    apart: "Connection is not a tls.Conn" exactly when the input is not a
    [*tls.Conn], "Connection is not a net.TCPConn" when it is one. *)
Theorem ExtractConn_error_shape conn w p e :
  (ExtractConn conn w).2 = Returns (p, e) → e ≠ nil_error →
  p = null
  ∧ ((e = errorString "Connection is not a tls.Conn" ∧ ∀ q, conn ≠ tlsConnOf q)
     ∨ (e = errorString "Connection is not a net.TCPConn" ∧ ∃ q, conn = tlsConnOf q)).
Proof.
  intros H He.
  destruct conn as [|[|a]|q|d q]; simpl in H; try (injection H as <- <-; split; [done|by left]).
  - done.
  - unfold ExtractConn, bind, reflect_Elem, gets, ret in H. simpl in H.
    destruct (tlsConns w !! a) as [s|]; [|done].
    destruct (FieldByName s "conn") as [field|]; [|done].
    destruct (assert_TCPConn field); simpl in H; injection H as <- <-; [done|].
    split; [done|]. right. split; [done|]. by eexists.
Qed.

(** X3. [ExtractConn] panics exactly on a [*tls.Conn] that is a nil pointer
    (or points to no struct, which Go does not produce) or whose struct has
    no field named [conn]; on every other input it returns. *)
Theorem ExtractConn_panics_iff conn w :
  (∃ msg, (ExtractConn conn w).2 = Panics msg)
  ↔ ∃ p, conn = tlsConnOf p
         ∧ match p with
           | null => True
           | ptr a => match tlsConns w !! a with
                      | None => True
                      | Some s => FieldByName s "conn" = None
                      end
           end.
Proof.
  split.
  - intros [msg H]. destruct conn as [|p|q|d q]; try done. exists p. split; [done|].
    destruct p as [|a]; [done|].
    unfold ExtractConn, bind, reflect_Elem, gets, ret in H. simpl in H.
    destruct (tlsConns w !! a) as [s|]; [|done].
    destruct (FieldByName s "conn") as [field|]; [|done].
    by destruct (assert_TCPConn field).
  - intros (p & -> & Hp). unfold ExtractConn, bind, reflect_Elem, gets, ret. simpl.
    destruct p as [|a]; [by eexists|].
    destruct (tlsConns w !! a) as [s|]; [|by eexists].
    rewrite Hp. by eexists.
Qed.
End ExtractConnShape.

Lemma ExtractConn_success_inv_witness :
  ∃ a s, tlsConnOf (ptr 1%positive) = tlsConnOf (ptr a) ∧ tlsConns net0 !! a = Some s
         ∧ FieldByName s "conn" = Some (FConn (TCPConnOf (ptr 2%positive))).
Proof.
  apply (ExtractConn_success_inv (tlsConnOf (ptr 1%positive)) net0 (ptr 2%positive)).
  reflexivity.
Defined.

Lemma ExtractConn_error_shape_witness :
  null = null
  ∧ ((errorString "Connection is not a net.TCPConn"
      = errorString "Connection is not a tls.Conn"
      ∧ ∀ q, tlsConnOf (ptr 3%positive) ≠ tlsConnOf q)
     ∨ (errorString "Connection is not a net.TCPConn"
        = errorString "Connection is not a net.TCPConn"
        ∧ ∃ q, tlsConnOf (ptr 3%positive) = tlsConnOf q)).
Proof.
  apply (ExtractConn_error_shape (tlsConnOf (ptr 3%positive)) net0 null
           (errorString "Connection is not a net.TCPConn"));
    [reflexivity | discriminate].
Defined.

Lemma ExtractConn_panics_iff_witness :
  (∃ msg, (ExtractConn (tlsConnOf (ptr 5%positive)) net_odd).2 = Panics msg)
  ∧ (∃ msg, (ExtractConn (tlsConnOf null) net0).2 = Panics msg).
Proof.
  split.
  - apply (proj2 (ExtractConn_panics_iff (tlsConnOf (ptr 5%positive)) net_odd)).
    exists (ptr 5%positive). split; reflexivity.
  - apply (proj2 (ExtractConn_panics_iff (tlsConnOf null) net0)).
    exists null. split; [reflexivity | exact I].
Defined.

Section SetTimeoutsShape.
Variable os_reject : NetWorld -> SockCall -> error.

(** A socket option method leaves the TLS connections, the set of sockets
    and every socket but its receiver as they were. *)
Lemma setsockopt_frame call conn update w w' e :
  setsockopt os_reject call conn update w = (w', e) →
  tlsConns w' = tlsConns w
  ∧ dom (tcpConns w') = dom (tcpConns w)
  ∧ ∀ a, conn ≠ ptr a → tcpConns w' !! a = tcpConns w !! a.
Proof.
  unfold setsockopt. intros H.
  destruct conn as [|a0]; [by simplify_eq|].
  destruct (tcpConns w !! a0) as [s|] eqn:Hs; [|by simplify_eq].
  destruct (os_reject w call); simplify_eq; simpl; try done.
  split; [done|]. split.
  - by apply dom_insert_lookup_L.
  - intros a Ha. apply lookup_insert_ne. congruence.
Qed.

(** The three ways a call of [SetTimeouts] can end. *)
Lemma SetTimeouts_cases conn w w' e :
  SetTimeouts os_reject conn w = (w', e) →
  (e ≠ nil_error ∧ SetUserTimeout os_reject conn 30000000000 w = (w', e))
  ∨ (e ≠ nil_error
     ∧ ∃ w1, SetUserTimeout os_reject conn 30000000000 w = (w1, nil_error)
             ∧ SetKeepAlive os_reject conn true w1 = (w', e))
  ∨ (∃ w1 w2, SetUserTimeout os_reject conn 30000000000 w = (w1, nil_error)
              ∧ SetKeepAlive os_reject conn true w1 = (w2, nil_error)
              ∧ SetKeepAlivePeriod os_reject conn 3000000000 w2 = (w', e)).
Proof.
  rewrite SetTimeouts_steps. intros H.
  destruct (SetUserTimeout _ _ _ w) as [w1 e1] eqn:H1.
  destruct (is_err e1) eqn:E1.
  { left. simplify_eq. split; [by apply is_err_true|done]. }
  apply is_err_nil in E1 as ->. right.
  destruct (SetKeepAlive _ _ _ w1) as [w2 e2] eqn:H2.
  destruct (is_err e2) eqn:E2.
  { left. simplify_eq. split; [by apply is_err_true|]. by exists w1. }
  apply is_err_nil in E2 as ->. right. exists w1, w2.
  destruct (SetKeepAlivePeriod _ _ _ w2) as [w3 e3] eqn:H3.
  destruct (is_err e3) eqn:E3; simplify_eq; [done|].
  apply is_err_nil in E3 as ->. done.
Qed.

(** X4. Whatever the operating system answers, [SetTimeouts] makes at
    least one and at most three calls, all on the handle it was given: a
    prefix of [SetUserTimeout] with 30 s, [SetKeepAlive] with [true],
    [SetKeepAlivePeriod] with 3 s, and all three when it returns nil. It
    never switches keepalive off and never retries a step. *)
Theorem SetTimeouts_calls_prefix conn w w' e :
  SetTimeouts os_reject conn w = (w', e) →
  ∃ n, (1 ≤ n ≤ 3)%nat
       ∧ sockCalls w' = sockCalls w ++ take n [CallSetUserTimeout conn (30 * 1000000000);
                                               CallSetKeepAlive conn true;
                                               CallSetKeepAlivePeriod conn (3 * 1000000000)]
       ∧ (e = nil_error → n = 3%nat).
Proof.
  change (30 * 1000000000) with 30000000000. change (3 * 1000000000) with 3000000000.
  intros H. apply SetTimeouts_cases in H as [(He & H1)|[(He & w1 & H1 & H2)|(w1 & w2 & H1 & H2 & H3)]].
  - exists 1%nat. split; [lia|]. split; [|done].
    by apply setsockopt_trace in H1 as [-> _].
  - exists 2%nat. split; [lia|]. split; [|done].
    apply setsockopt_trace in H2 as [-> _]. apply setsockopt_trace in H1 as [-> _].
    by rewrite <- app_assoc.
  - exists 3%nat. split; [lia|]. split; [|done].
    apply setsockopt_trace in H3 as [-> _]. apply setsockopt_trace in H2 as [-> _].
    apply setsockopt_trace in H1 as [-> _]. by rewrite <- !app_assoc.
Qed.

(** X5. [SetTimeouts] touches nothing but the socket of its handle: the TLS
    connections are as before, no socket appears or disappears, and every
    other socket keeps its options, whether the call succeeds or fails. *)
Theorem SetTimeouts_frame conn w w' e :
  SetTimeouts os_reject conn w = (w', e) →
  tlsConns w' = tlsConns w
  ∧ dom (tcpConns w') = dom (tcpConns w)
  ∧ ∀ a, conn ≠ ptr a → tcpConns w' !! a = tcpConns w !! a.
Proof.
  intros H. apply SetTimeouts_cases in H as [(He & H1)|[(He & w1 & H1 & H2)|(w1 & w2 & H1 & H2 & H3)]].
  - by apply setsockopt_frame in H1.
  - apply setsockopt_frame in H1 as (T1 & D1 & F1).
    apply setsockopt_frame in H2 as (T2 & D2 & F2).
    split; [congruence|]. split; [congruence|].
    intros a Ha. by rewrite F2, F1.
  - apply setsockopt_frame in H1 as (T1 & D1 & F1).
    apply setsockopt_frame in H2 as (T2 & D2 & F2).
    apply setsockopt_frame in H3 as (T3 & D3 & F3).
    split; [congruence|]. split; [congruence|].
    intros a Ha. by rewrite F3, F2, F1.
Qed.

(** X6. [SetTimeouts] is idempotent on the sockets: a second successful
    call on the same handle leaves every socket as the first one left it. *)
Theorem SetTimeouts_idempotent conn w w1 w2 :
  SetTimeouts os_reject conn w = (w1, nil_error) →
  SetTimeouts os_reject conn w1 = (w2, nil_error) →
  tcpConns w2 = tcpConns w1.
Proof.
  intros Hfirst Hsecond.
  apply SetTimeouts_nil_steps in Hfirst as (u1 & u2 & A1 & A2 & A3).
  apply SetTimeouts_nil_steps in Hsecond as (v1 & v2 & B1 & B2 & B3).
  destruct (three_options_set _ _ _ _ _ _ A1 A2 A3) as (_ & a & -> & Ha).
  destruct (three_options_set _ _ _ _ _ _ B1 B2 B3) as (_ & b & Hb & Hb').
  simplify_eq. apply map_eq. intros i.
  destruct (decide (i = b)) as [->|Hne]; [congruence|].
  unfold SetUserTimeout in B1. unfold SetKeepAlive in B2.
  unfold SetKeepAlivePeriod in B3.
  apply setsockopt_frame in B1 as (_ & _ & F1).
  apply setsockopt_frame in B2 as (_ & _ & F2).
  apply setsockopt_frame in B3 as (_ & _ & F3).
  rewrite F3, F2, F1; [done|congruence..].
Qed.
End SetTimeoutsShape.

Lemma SetTimeouts_calls_prefix_witness :
  ∃ n, (1 ≤ n ≤ 3)%nat
       ∧ sockCalls (SetTimeouts os_reject_user_timeout (ptr 2%positive) net0).1
         = sockCalls net0 ++ take n [CallSetUserTimeout (ptr 2%positive) (30 * 1000000000);
                                     CallSetKeepAlive (ptr 2%positive) true;
                                     CallSetKeepAlivePeriod (ptr 2%positive) (3 * 1000000000)]
       ∧ (Errno EBADF = nil_error → n = 3%nat).
Proof.
  apply (SetTimeouts_calls_prefix os_reject_user_timeout (ptr 2%positive) net0
           (SetTimeouts os_reject_user_timeout (ptr 2%positive) net0).1 (Errno EBADF)).
  reflexivity.
Defined.

Lemma SetTimeouts_frame_witness :
  tlsConns (SetTimeouts os_reject_period (ptr 2%positive) net0).1 = tlsConns net0
  ∧ dom (tcpConns (SetTimeouts os_reject_period (ptr 2%positive) net0).1)
    = dom (tcpConns net0)
  ∧ ∀ a, ptr 2%positive ≠ ptr a →
         tcpConns (SetTimeouts os_reject_period (ptr 2%positive) net0).1 !! a
         = tcpConns net0 !! a.
Proof.
  apply (SetTimeouts_frame os_reject_period (ptr 2%positive) net0
           (SetTimeouts os_reject_period (ptr 2%positive) net0).1 set_failed).
  reflexivity.
Defined.

Lemma SetTimeouts_idempotent_witness :
  tcpConns (SetTimeouts os_accept (ptr 2%positive)
              (SetTimeouts os_accept (ptr 2%positive) net0).1).1
  = tcpConns (SetTimeouts os_accept (ptr 2%positive) net0).1.
Proof.
  apply (SetTimeouts_idempotent os_accept (ptr 2%positive) net0); reflexivity.
Defined.

(** * Further properties of the housekeeping task *)

Section HousekeepingTraces.
Variable X : Externals.

Lemma cancelled_ids_app l1 l2 :
  cancelled_ids (l1 ++ l2) = cancelled_ids l1 ++ cancelled_ids l2.
Proof.
  induction l1 as [|c l1 IH]; [done|]. destruct c; simpl; by rewrite IH.
Qed.

Lemma cancelled_ids_cancels ids : cancelled_ids (CallCancel <$> ids) = ids.
Proof. induction ids as [|i ids IH]; [done|]. simpl. f_equal. exact IH. Qed.

Lemma cancelled_ids_elem id calls : id ∈ cancelled_ids calls ↔ CallCancel id ∈ calls.
Proof.
  induction calls as [|c calls IH]; simpl.
  - by rewrite !elem_of_nil.
  - destruct c as [c t|i|i|i]; rewrite ?elem_of_cons, IH.
    + split; [by right | by intros [?|?]].
    + split; [by right | by intros [?|?]].
    + split; (intros [?|?]; [left; congruence | by right]).
    + split; [by right | by intros [?|?]].
Qed.

(** The scan keeps the order in which it visits the operations. *)
Lemma scan_operations_sublist ops acc w w' res :
  scan_operations X ops acc w = (w', res) →
  ∃ sel, res = acc ++ sel ∧ sel `sublist_of` ops.
Proof.
  revert acc w. induction ops as [|op rest IH]; intros acc w H; simpl in H.
  - unfold ret in H. simplify_eq. exists []. by rewrite app_nil_r.
  - destruct (negb (bool_decide (opType op.2 = ClusterJoinToken))
              && negb (bool_decide (opType op.2 = CertificateAddToken))).
    { apply IH in H as (sel & -> & Hsub). exists sel. split; [done|].
      by apply sublist_cons. }
    destruct (assert_Time (opMetadata op.2 !! "expiresAt")) as [expiry|].
    2:{ apply IH in H as (sel & -> & Hsub). exists sel. split; [done|].
        by apply sublist_cons. }
    unfold bind, time_Now in H.
    destruct (After (wall_clock X (clockReads w)) expiry).
    + apply IH in H as (sel & -> & Hsub). exists (op :: sel).
      split; [by rewrite <- app_assoc|]. by apply sublist_skip.
    + apply IH in H as (sel & -> & Hsub). exists sel. split; [done|].
      by apply sublist_cons.
Qed.

(** With a clock that stands still, the scan is a filter. *)
Lemma scan_operations_frozen now ops acc w w' res :
  (∀ k, wall_clock X k = now) →
  scan_operations X ops acc w = (w', res) →
  res = acc ++ filter (λ p, expired_at now p.2 = true) ops.
Proof.
  intros Hclock. revert acc w.
  induction ops as [|op rest IH]; intros acc w H; simpl in H.
  - unfold ret in H. simplify_eq. by rewrite app_nil_r.
  - rewrite filter_cons.
    destruct (negb (bool_decide (opType op.2 = ClusterJoinToken))
              && negb (bool_decide (opType op.2 = CertificateAddToken))) eqn:Hty.
    { assert (expired_at now op.2 = false) as Hno.
      { unfold expired_at.
        apply andb_true_iff in Hty as [Ha%negb_true_iff Hb%negb_true_iff].
        by rewrite Ha, Hb. }
      rewrite decide_False by (by rewrite Hno). by apply IH in H. }
    assert (bool_decide (opType op.2 = ClusterJoinToken)
            || bool_decide (opType op.2 = CertificateAddToken) = true) as Hyes.
    { apply andb_false_iff in Hty as [Ha%negb_false_iff|Hb%negb_false_iff].
      - by rewrite Ha.
      - by rewrite Hb, orb_true_r. }
    destruct (assert_Time (opMetadata op.2 !! "expiresAt")) as [expiry|] eqn:Hexp.
    2:{ rewrite decide_False; [by apply IH in H|].
        unfold expired_at. by rewrite Hexp, andb_false_r. }
    unfold bind, time_Now in H. rewrite Hclock in H.
    assert (expired_at now op.2 = After now expiry) as Heq
      by (unfold expired_at; by rewrite Hyes, Hexp).
    rewrite Heq. destruct (After now expiry).
    + rewrite decide_True by done. apply IH in H. rewrite H. by rewrite <- app_assoc.
    + rewrite decide_False by done. by apply IH in H.
Qed.

(** The calls a run adds to the trace. *)
Lemma autoRemoveExpiredTokens_trace w w' e :
  autoRemoveExpiredTokens X w = (w', e) →
  ∃ ws expired new,
    scan_operations X (range_order X (registry w)) [] w = (ws, expired)
    ∧ opCalls w' = opCalls w ++ new
    ∧ ((expired = [] ∧ e = nil_error ∧ new = [])
       ∨ (expired ≠ [] ∧ e ≠ nil_error
          ∧ (new = [CallOperationCreate OperationClassTask RemoveExpiredTokens]
             ∨ new = [CallOperationCreate OperationClassTask RemoveExpiredTokens;
                      CallStart (uuid_New X ws)]))
       ∨ (expired ≠ [] ∧ e = nil_error
          ∧ new = [CallOperationCreate OperationClassTask RemoveExpiredTokens;
                   CallStart (uuid_New X ws)]
                  ++ (CallCancel <$> expired.*1) ++ [CallWait (uuid_New X ws)])).
Proof.
  intros Hrun.
  destruct (autoRemoveExpiredTokens_run X _ _ _ Hrun)
    as (ws & expired & Hscan & _ & Hcases).
  exists ws, expired.
  destruct Hcases
    as [(-> & -> & ->)
       |[(Hne & He & _ & _ & Hc & _)
        |[(Hne & He & _ & _ & Hc & _)|(Hne & -> & _ & _ & Hc & _)]]].
  - exists []. split; [done|]. rewrite app_nil_r.
    split; [by apply scan_operations_spec in Hscan as (_ & _ & ? & _)|]. by left.
  - eexists. split; [done|]. split; [exact Hc|]. right; left. auto.
  - eexists. split; [done|]. split; [exact Hc|]. right; left. auto.
  - eexists. split; [done|]. split; [exact Hc|]. right; right. auto.
Qed.

(** The ids a run calls [Cancel] on are those of the operations the scan
    selected, when the run returns nil, and none otherwise. *)
Lemma autoRemoveExpiredTokens_cancelled w w' e :
  autoRemoveExpiredTokens X w = (w', e) →
  ∃ ws expired new,
    scan_operations X (range_order X (registry w)) [] w = (ws, expired)
    ∧ opCalls w' = opCalls w ++ new
    ∧ cancelled_ids new = (if is_err e then [] else expired.*1).
Proof.
  intros Hrun.
  destruct (autoRemoveExpiredTokens_trace _ _ _ Hrun)
    as (ws & expired & new & Hscan & Hcalls & Hcases).
  exists ws, expired, new. split; [done|]. split; [done|].
  destruct Hcases as [(-> & -> & ->)|[(_ & He & [->| ->])|(_ & -> & ->)]].
  - done.
  - apply is_err_true in He. by rewrite He.
  - apply is_err_true in He. by rewrite He.
  - simpl. rewrite cancelled_ids_app, cancelled_ids_cancels. simpl.
    by rewrite app_nil_r.
Qed.
End HousekeepingTraces.

Section HousekeepingShape.
Variable X : Externals.

(** The window of clock readings a scan can take. *)
Lemma scan_window w ws expired k :
  scan_operations X (range_order X (registry w)) [] w = (ws, expired) →
  (clockReads w ≤ k < clockReads ws)%nat →
  (clockReads w ≤ k < clockReads w + length (range_order X (registry w)))%nat.
Proof. intros Hscan%scan_operations_reads Hk. lia. Qed.

(** X7. The comparison with the clock is strict: a token operation whose
    expiry is not before the clock readings of the run, in particular one
    that expires at the very instant the clock shows, is not cancelled,
    however the run ends. *)
Theorem token_not_before_clock_not_cancelled w w' e id op expiry :
  range_order X (registry w) ≡ₚ map_to_list (registry w) →
  registry w !! id = Some op →
  opMetadata op !! "expiresAt" = Some (AnyTime expiry) →
  (∀ k, (clockReads w ≤ k < clockReads w + length (range_order X (registry w)))%nat →
        wall_clock X k ≤ expiry) →
  autoRemoveExpiredTokens X w = (w', e) →
  ∃ new, opCalls w' = opCalls w ++ new ∧ CallCancel id ∉ new.
Proof.
  intros Hperm Hop Hmeta Hclock Hrun.
  destruct (autoRemoveExpiredTokens_cancelled X _ _ _ Hrun)
    as (ws & expired & new & Hscan & Hcalls & Hids).
  exists new. split; [done|]. intros Hin%cancelled_ids_elem. rewrite Hids in Hin.
  destruct (is_err e); [by apply elem_of_nil in Hin|].
  destruct (scan_selects X _ _ _ Hperm Hscan) as [Hsound _].
  destruct (Hsound id Hin) as (op' & expiry' & k & Hop' & _ & He & Hk & Hlt).
  simplify_eq. apply (scan_window _ _ _ _ Hscan) in Hk. apply Hclock in Hk. lia.
Qed.

(** X8. An operation that is of neither token kind is not cancelled,
    whatever its metadata says about an expiry and however the run ends. *)
Theorem non_token_not_cancelled w w' e id op :
  range_order X (registry w) ≡ₚ map_to_list (registry w) →
  registry w !! id = Some op →
  opType op ≠ ClusterJoinToken → opType op ≠ CertificateAddToken →
  autoRemoveExpiredTokens X w = (w', e) →
  ∃ new, opCalls w' = opCalls w ++ new ∧ CallCancel id ∉ new.
Proof.
  intros Hperm Hop Hn1 Hn2 Hrun.
  destruct (autoRemoveExpiredTokens_cancelled X _ _ _ Hrun)
    as (ws & expired & new & Hscan & Hcalls & Hids).
  exists new. split; [done|]. intros Hin%cancelled_ids_elem. rewrite Hids in Hin.
  destruct (is_err e); [by apply elem_of_nil in Hin|].
  destruct (scan_selects X _ _ _ Hperm Hscan) as [Hsound _].
  destruct (Hsound id Hin) as (op' & expiry' & k & Hop' & [Ht|Ht] & _); by simplify_eq.
Qed.

(** X9. A run that returns an error has found expired tokens but has
    cancelled none of them: when the housekeeping operation cannot be
    created or started, [Cancel] is not called at all. *)
Theorem failed_run_cancels_nothing w w' e :
  autoRemoveExpiredTokens X w = (w', e) → e ≠ nil_error →
  (scan_operations X (range_order X (registry w)) [] w).2 ≠ []
  ∧ ∃ new, opCalls w' = opCalls w ++ new ∧ ∀ id, CallCancel id ∉ new.
Proof.
  intros Hrun He.
  destruct (autoRemoveExpiredTokens_trace X _ _ _ Hrun)
    as (ws & expired & new & Hscan & Hcalls & Hcases).
  rewrite Hscan. simpl.
  destruct Hcases as [(_ & ? & _)|[(Hne & _ & Hnew)|(_ & ? & _)]]; try done.
  split; [done|]. exists new. split; [done|]. intros id Hin.
  destruct Hnew as [-> | ->].
  - by apply list_elem_of_singleton in Hin.
  - apply elem_of_cons in Hin as [?|Hin%list_elem_of_singleton]; done.
Qed.

(** X10. A run calls [Cancel] at most once on an operation, and calls it in
    the order in which the range over the registry visited the
    operations. *)
Theorem cancels_once_in_range_order w w' e :
  range_order X (registry w) ≡ₚ map_to_list (registry w) →
  autoRemoveExpiredTokens X w = (w', e) →
  ∃ new, opCalls w' = opCalls w ++ new
         ∧ NoDup (cancelled_ids new)
         ∧ cancelled_ids new `sublist_of` (range_order X (registry w)).*1.
Proof.
  intros Hperm Hrun.
  destruct (autoRemoveExpiredTokens_cancelled X _ _ _ Hrun)
    as (ws & expired & new & Hscan & Hcalls & Hids).
  exists new. split; [done|].
  assert (cancelled_ids new `sublist_of` (range_order X (registry w)).*1) as Hsub.
  { rewrite Hids. destruct (is_err e); [apply sublist_nil_l|].
    apply scan_operations_sublist in Hscan as (sel & -> & Hsub). simpl.
    by apply fmap_sublist. }
  split; [|done]. eapply sublist_NoDup; [|exact Hsub].
  rewrite Hperm. apply NoDup_fst_map_to_list.
Qed.


(** X12. When the clock shows the same instant [now] throughout a run that
    returns nil, the operations cancelled are, up to their order, exactly
    the operations of the registry that are of a token kind and carry a
    [time.Time] expiry before [now]: the order in which Go ranges over the
    registry does not change which operations are cancelled. *)
Theorem frozen_clock_cancels_exactly w w' now :
  range_order X (registry w) ≡ₚ map_to_list (registry w) →
  (∀ k, wall_clock X k = now) →
  autoRemoveExpiredTokens X w = (w', nil_error) →
  ∃ new, opCalls w' = opCalls w ++ new
         ∧ cancelled_ids new
           ≡ₚ (filter (λ p, expired_at now p.2 = true) (map_to_list (registry w))).*1.
Proof.
  intros Hperm Hclock Hrun.
  destruct (autoRemoveExpiredTokens_cancelled X _ _ _ Hrun)
    as (ws & expired & new & Hscan & Hcalls & Hids).
  exists new. split; [done|]. rewrite Hids. simpl.
  apply (scan_operations_frozen X now _ _ _ _ _ Hclock) in Hscan. simpl in Hscan.
  rewrite Hscan. by rewrite Hperm.
Qed.
End HousekeepingShape.

Lemma token_not_before_clock_not_cancelled_witness :
  ∃ new, opCalls (autoRemoveExpiredTokens X_frozen daemon_boundary).1
         = opCalls daemon_boundary ++ new
         ∧ CallCancel "tok-now" ∉ new.
Proof.
  apply (token_not_before_clock_not_cancelled X_frozen daemon_boundary
           (autoRemoveExpiredTokens X_frozen daemon_boundary).1
           (autoRemoveExpiredTokens X_frozen daemon_boundary).2
           "tok-now" (token ClusterJoinToken (<["expiresAt" := AnyTime 1000]> ∅)) 1000).
  - reflexivity.
  - vm_compute. reflexivity.
  - vm_compute. reflexivity.
  - intros k _. simpl. lia.
  - vm_compute. reflexivity.
Defined.

Lemma non_token_not_cancelled_witness :
  ∃ new, opCalls (autoRemoveExpiredTokens X0 daemon0).1 = opCalls daemon0 ++ new
         ∧ CallCancel "backup" ∉ new.
Proof.
  apply (non_token_not_cancelled X0 daemon0 (autoRemoveExpiredTokens X0 daemon0).1
           (autoRemoveExpiredTokens X0 daemon0).2 "backup"
           (mkOperation OperationClassTask (OtherOperationType 37)
              (<["expiresAt" := AnyTime 1]> ∅) Running)).
  - reflexivity.
  - vm_compute. reflexivity.
  - discriminate.
  - discriminate.
  - vm_compute. reflexivity.
Defined.

Lemma failed_run_cancels_nothing_witness :
  (scan_operations X_start_fails (range_order X_start_fails (registry daemon0)) [] daemon0).2
  ≠ []
  ∧ ∃ new, opCalls (autoRemoveExpiredTokens X_start_fails daemon0).1
           = opCalls daemon0 ++ new
           ∧ ∀ id, CallCancel id ∉ new.
Proof.
  apply (failed_run_cancels_nothing X_start_fails daemon0
           (autoRemoveExpiredTokens X_start_fails daemon0).1
           (errorString "Only pending operations can be started")).
  - vm_compute. reflexivity.
  - discriminate.
Defined.

Lemma cancels_once_in_range_order_witness :
  ∃ new, opCalls (autoRemoveExpiredTokens X0 daemon0).1 = opCalls daemon0 ++ new
         ∧ NoDup (cancelled_ids new)
         ∧ cancelled_ids new `sublist_of` (range_order X0 (registry daemon0)).*1.
Proof.
  apply (cancels_once_in_range_order X0 daemon0 (autoRemoveExpiredTokens X0 daemon0).1
           (autoRemoveExpiredTokens X0 daemon0).2).
  - reflexivity.
  - vm_compute. reflexivity.
Defined.


Lemma frozen_clock_cancels_exactly_witness :
  ∃ new, opCalls (autoRemoveExpiredTokens X_frozen daemon0).1 = opCalls daemon0 ++ new
         ∧ cancelled_ids new
           ≡ₚ (filter (λ p, expired_at 1000 p.2 = true) (map_to_list (registry daemon0))).*1.
Proof.
  apply (frozen_clock_cancels_exactly X_frozen daemon0
           (autoRemoveExpiredTokens X_frozen daemon0).1 1000).
  - reflexivity.
  - intros k. reflexivity.
  - vm_compute. reflexivity.
Defined.
